(** * price-service: circuit breaker, timeout and failure reporting

    A shallow embedding of [priceservice/src/app.service.ts] (class
    [AppService]) and of the earlier revision of the same class that the
    file carries after it.  Asynchronous code is modelled sequentially:
    one call settles before the next one starts, and everything the
    outside world decides for a call (the clock, what the HTTP GET does,
    who wins the timeout race, whether the monitor is reachable) is an
    explicit input of type [World]. *)

From Stdlib Require Import ZArith QArith String List Bool Lia.
Import ListNotations.

Local Open Scope string_scope.
Local Open Scope Z_scope.

(** ** JavaScript values *)

(** [LogType] of the logging-format package: the members the source uses. *)
Inductive LogType : Type := CB_OPEN | TIMEOUT | ERROR.

(** Object literals keep their fields in the order they are written. *)
#[warnings="-register-all"]
Inductive JsValue : Type :=
| JUndefined
| JNum (n : Z)
| JStr (s : string)
| JEnum (t : LogType)
| JObj (fields : list (string * JsValue)).

Fixpoint lookup (k : string) (fs : list (string * JsValue)) : option JsValue :=
  match fs with
  | [] => None
  | (k', v) :: rest => if String.eqb k k' then Some v else lookup k rest
  end.

Definition field (k : string) (v : JsValue) : option JsValue :=
  match v with
  | JObj fs => lookup k fs
  | _ => None
  end.

Definition keys (v : JsValue) : list string :=
  match v with
  | JObj fs => map fst fs
  | _ => []
  end.

(** Errors the catch block of [handleRequest] tells apart with
    [instanceof].  The two cockatiel classes are unrelated subclasses of
    [Error]; anything else carries the [message] the handler reads. *)
Inductive JsError : Type :=
| BrokenCircuitError
| TaskCancelledError
| OtherError (message : JsValue).

(** How a promise settles. *)
Inductive Settled (T : Type) : Type :=
| Resolved (v : T)
| Rejected (e : JsError).
Arguments Resolved {T} v.
Arguments Rejected {T} e.

Definition isResolved {T} (s : Settled T) : bool :=
  match s with
  | Resolved _ => true
  | Rejected _ => false
  end.

(** ** The outside world *)

(** What [httpService.get(url).toPromise()] does: it resolves with a
    response carrying [status] and [data], or it rejects with an error of
    the transport (never one of cockatiel's classes). *)
Inductive HttpOutcome : Type :=
| HttpResolves (status : Z) (data : JsValue)
| HttpRejects (message : JsValue).

Record World : Type := mkWorld {
  startedAt : Z;          (* clock when the call enters the breaker *)
  settledAt : Z;          (* clock when the guarded call has settled *)
  http : HttpOutcome;     (* what the downstream GET does *)
  deadlineFirst : bool;   (* the timeout fires before the GET settles *)
  monitorReachable : bool (* the POST to the monitor succeeds *)
}.

(** Observable actions of one call, in order. *)
Inductive Effect : Type :=
| HttpGet (url : string)
| HttpPost (url : string) (body : JsValue)
| ConsoleLog (line : JsValue).

Definition isGet (e : Effect) : bool :=
  match e with
  | HttpGet _ => true
  | _ => false
  end.

(** Number of downstream GET requests in a trace. *)
Definition downstreamCalls (tr : list Effect) : nat :=
  List.length (filter isGet tr).

(** Bodies POSTed to the monitor in a trace. *)
Fixpoint posted (tr : list Effect) : list JsValue :=
  match tr with
  | [] => []
  | HttpPost _ body :: rest => body :: posted rest
  | _ :: rest => posted rest
  end.

(** ** Configuration *)

(** The fields of [ConfigHandlerService] that [AppService] reads; the
    service object is shared and mutable, so it is part of the state. *)
Record ConfigHandlerService : Type := mkConfig {
  breakerType : string;
  timeoutDuration : Z;
  resetDuration : Z;
  monitorDuration : Z;
  threshold : Q;
  minimumRequests : Z;
  consecutiveFailures : Z;
  monitorUrl : string;
  databaseUrl : string;      (* read by the earlier revision only *)
  configWasUpdated : bool    (* read by the earlier revision only *)
}.

(** ** The breaker library (cockatiel) *)

Module Cockatiel.

(** Modelled from the spec: the circuit states of section 3; the source
    only imports the breaker from the cockatiel package.  [Open] carries
    the instant the reset timer was started. *)
Inductive CircuitState : Type :=
| Closed
| Open (openedAt : Z)
| HalfOpen.

(** Modelled from the spec: the [OutcomeRecord] of section 3, a
    timestamped success/failure tag; the cockatiel package is not part of
    the sources. *)
Record OutcomeRecord : Type := mkRecord {
  recordedAt : Z;
  succeeded : bool
}.

(** Modelled from the spec: the two [BreakerPolicy] variants of section
    4.1 with their parameters and their running state (cockatiel's
    [ConsecutiveBreaker] and [SamplingBreaker] are not part of the
    sources). *)
Inductive BreakerPolicy : Type :=
| ConsecutivePolicy (consecutiveFailureThreshold : Z) (count : Z)
| SamplingPolicy (failureRateThreshold : Q) (sampleWindowDuration : Z)
                 (minimumSampleSize : Z) (window : list OutcomeRecord).

(** Modelled from the spec: [new ConsecutiveBreaker(n)] starts with no
    failure counted (cockatiel's constructor is not part of the sources). *)
Definition ConsecutiveBreaker (n : Z) : BreakerPolicy :=
  ConsecutivePolicy n 0.

(** Modelled from the spec: [new SamplingBreaker({threshold, duration,
    minimumRps})] starts with an empty window (cockatiel's constructor is
    not part of the sources). *)
Definition SamplingBreaker (threshold : Q) (duration minimumRps : Z)
  : BreakerPolicy :=
  SamplingPolicy threshold duration minimumRps [].

(** Modelled from the spec: section 4.1, a record is within the trailing
    window when it is strictly younger than [sampleWindowDuration]; a
    record exactly at the boundary is excluded. *)
Definition withinWindow (now duration : Z) (r : OutcomeRecord) : bool :=
  now - recordedAt r <? duration.

(** Modelled from the spec: section 4.1 [recordOutcome]; the consecutive
    variant counts failures in a row and a success resets the count to 0,
    the sampling variant appends a record and prunes what left the window. *)
Definition recordOutcome (now : Z) (success : bool) (p : BreakerPolicy)
  : BreakerPolicy :=
  match p with
  | ConsecutivePolicy n c =>
      ConsecutivePolicy n (if success then 0 else c + 1)
  | SamplingPolicy th d m w =>
      SamplingPolicy th d m
        (filter (withinWindow now d) (w ++ [mkRecord now success]))
  end.

Definition failuresIn (w : list OutcomeRecord) : Z :=
  Z.of_nat (List.length (filter (fun r => negb (succeeded r)) w)).

Definition totalIn (w : list OutcomeRecord) : Z :=
  Z.of_nat (List.length w).

(** Modelled from the spec: section 4.1 [shouldOpen]; consecutive: the
    count has reached the threshold; sampling: the number of records in
    the window is at least [minimumSampleSize] and failures / total is at
    least [failureRateThreshold], and an empty window never opens. *)
Definition shouldOpen (now : Z) (p : BreakerPolicy) : bool :=
  match p with
  | ConsecutivePolicy n c => n <=? c
  | SamplingPolicy th d m w =>
      let recent := filter (withinWindow now d) w in
      negb (totalIn recent =? 0)
      && (m <=? totalIn recent)
      && Qle_bool th (inject_Z (failuresIn recent) / inject_Z (totalIn recent))
  end.

(** Modelled from the spec: section 4.2, a successful probe clears the
    policy state. *)
Definition clearPolicy (p : BreakerPolicy) : BreakerPolicy :=
  match p with
  | ConsecutivePolicy n _ => ConsecutivePolicy n 0
  | SamplingPolicy th d m _ => SamplingPolicy th d m []
  end.

(** Modelled from the spec: the [CircuitBreaker] of section 4.2, a policy
    wrapped with the circuit state and the reset duration. *)
Record CircuitBreakerPolicy : Type := mkBreaker {
  halfOpenAfter : Z;
  policy : BreakerPolicy;
  state : CircuitState
}.

(** Modelled from the spec: [Policy.handleAll().circuitBreaker(reset,
    policy)] builds a breaker in the initial state [Closed]. *)
Definition circuitBreaker (reset : Z) (p : BreakerPolicy)
  : CircuitBreakerPolicy :=
  mkBreaker reset p Closed.

(** Modelled from the spec: [execute] of section 4.2.  [Closed]: the call
    passes through, its outcome is fed to the policy and the circuit opens
    when [shouldOpen] holds.  [Open]: the call is rejected without being
    attempted until the reset timer has elapsed; the first call after that
    is the half-open probe, whose success closes the circuit and clears the
    policy and whose failure reopens it and restarts the timer.  A call
    that finds the breaker [HalfOpen] is rejected like one that finds it
    [Open].  [handleAll] makes every rejection of the call a failure. *)
Definition execute {T} (b : CircuitBreakerPolicy) (start finish : Z)
    (call : unit -> Settled T * list Effect)
  : Settled T * list Effect * CircuitBreakerPolicy :=
  match state b with
  | Closed =>
      let '(r, tr) := call tt in
      let p := recordOutcome finish (isResolved r) (policy b) in
      (r, tr,
       mkBreaker (halfOpenAfter b) p
                 (if shouldOpen finish p then Open finish else Closed))
  | Open t =>
      if start - t <? halfOpenAfter b
      then (Rejected BrokenCircuitError, [], b)
      else
        let '(r, tr) := call tt in
        if isResolved r
        then (r, tr, mkBreaker (halfOpenAfter b) (clearPolicy (policy b)) Closed)
        else (r, tr, mkBreaker (halfOpenAfter b) (policy b) (Open finish))
  | HalfOpen => (Rejected BrokenCircuitError, [], b)
  end.

(** Modelled from the spec: the [TimeoutGuard] of section 4.3
    ([Policy.timeout(duration, TimeoutStrategy.Aggressive).execute]).  The
    call is started either way; when the deadline elapses first the guard
    rejects with [TaskCancelledError] and the call's own result is
    discarded, otherwise the call's result or error is returned unchanged. *)
Definition timeoutExecute {T} (duration : Z) (deadline_first : bool)
    (call : unit -> Settled T * list Effect) : Settled T * list Effect :=
  let '(r, tr) := call tt in
  if deadline_first then (Rejected TaskCancelledError, tr) else (r, tr).

End Cockatiel.
Import Cockatiel.

(** ** AppService *)

Record AppService : Type := mkApp {
  configHandlerService : ConfigHandlerService;
  breaker : CircuitBreakerPolicy
}.

(** [setupBreaker]: builds the breaker the configuration selects. *)
Definition setupBreaker (app : AppService) : AppService :=
  let cfg := configHandlerService app in
  if String.eqb (breakerType cfg) "consecutive"
  then mkApp cfg
         (circuitBreaker (resetDuration cfg)
            (ConsecutiveBreaker (consecutiveFailures cfg)))
  else mkApp cfg
         (circuitBreaker (resetDuration cfg)
            (SamplingBreaker (threshold cfg) (monitorDuration cfg)
               (minimumRequests cfg))).

(** The constructor stores its arguments and calls [setupBreaker]; the
    [breaker] field is unset before that. *)
Definition newAppService (cfg : ConfigHandlerService) : AppService :=
  setupBreaker (mkApp cfg (circuitBreaker 0 (ConsecutiveBreaker 0))).

(** [sendError]: posts the log to the monitor, prints which of the two
    callbacks ran, and returns the log it was given. *)
Definition sendError (cfg : ConfigHandlerService) (log : JsValue)
    (reachable : bool) : JsValue * list Effect :=
  (log,
   [HttpPost (monitorUrl cfg) log;
    ConsoleLog
      (JStr (if reachable
             then "Report sent to monitor at " ++ monitorUrl cfg
             else "Monitor at " ++ monitorUrl cfg ++ " not available")%string)]).

(** [sendRequest]: one GET; the status is only looked at for the log line. *)
Definition sendRequest (url : string) (h : HttpOutcome)
  : Settled JsValue * list Effect :=
  match h with
  | HttpResolves status data =>
      (Resolved data,
       HttpGet url ::
       (if status =? 200
        then [ConsoleLog (JStr ("Request to " ++ url ++ " was successful")%string)]
        else []))
  | HttpRejects message => (Rejected (OtherError message), [HttpGet url])
  end.

(** [handleTimeout]: [sendRequest] under a fresh timeout policy; the value
    returned is the [result] variable the guarded callback assigned. *)
Definition handleTimeout (cfg : ConfigHandlerService) (url : string)
    (w : World) : Settled JsValue * list Effect :=
  timeoutExecute (timeoutDuration cfg) (deadlineFirst w)
    (fun _ => sendRequest url (http w)).

(** The object returned on success. *)
Definition successResponse (data : JsValue) : JsValue :=
  JObj [("type", JStr "Success");
        ("message", JStr "Request to database was successful");
        ("result", data)].

(** The log the catch block of [handleRequest] builds for [error]. *)
Definition buildLog (cfg : ConfigHandlerService) (now : Z) (error : JsError)
  : JsValue :=
  match error with
  | BrokenCircuitError =>
      JObj [("type", JEnum CB_OPEN);
            ("time", JNum now);
            ("message", JStr "CircuitBreaker is open.");
            ("source", JStr "Database Service");
            ("detector", JStr "Price Service");
            ("data", JObj [("openTime", JNum (resetDuration cfg));
                           ("failedResponses", JNum (consecutiveFailures cfg))])]
  | TaskCancelledError =>
      JObj [("type", JEnum TIMEOUT);
            ("time", JNum now);
            ("message", JStr "Request was timed out.");
            ("source", JStr "Database Service");
            ("detector", JStr "Price Service");
            ("data", JObj [("timeoutDuration", JNum (timeoutDuration cfg))])]
  | OtherError message =>
      JObj [("type", JEnum ERROR);
            ("time", JNum now);
            ("message", JStr "Service is not available.");
            ("source", JStr "Database Service");
            ("detector", JStr "Price Service");
            ("data", JObj [("expected", JStr "Not an error");
                           ("result", message)])]
  end.

(** The guarded call of [handleRequest]:
    [this.breaker.execute(() => this.handleTimeout(url))]. *)
Definition guardedCall (app : AppService) (url : string) (w : World)
  : Settled JsValue * list Effect * CircuitBreakerPolicy :=
  execute (breaker app) (startedAt w) (settledAt w)
    (fun _ => handleTimeout (configHandlerService app) url w).

(** What one call of [handleRequest] yields: how its promise settles, the
    service afterwards and the actions it performed. *)
Record Served : Type := mkServed {
  response : Settled JsValue;
  after : AppService;
  trace : list Effect
}.

(** [handleRequest]. *)
Definition handleRequest (app : AppService) (url : string) (w : World)
  : Served :=
  let cfg := configHandlerService app in
  let '(r, tr, b) := guardedCall app url w in
  match r with
  | Resolved data => mkServed (Resolved (successResponse data)) (mkApp cfg b) tr
  | Rejected error =>
      let '(v, tr') :=
        sendError cfg (buildLog cfg (settledAt w) error) (monitorReachable w) in
      mkServed (Resolved v) (mkApp cfg b) (tr ++ tr')
  end.

(** A call failed when what it resolved with is not the success object. *)
Definition failed (s : Served) : bool :=
  match response s with
  | Resolved v =>
      match field "type" v with
      | Some (JStr "Success") => false
      | _ => true
      end
  | Rejected _ => true
  end.

(** A sequence of calls, one after the other. *)
Fixpoint serve (app : AppService) (reqs : list (string * World))
  : list Served :=
  match reqs with
  | [] => []
  | (url, w) :: rest =>
      let s := handleRequest app url w in
      s :: serve (after s) rest
  end.

(** The service after a sequence of calls. *)
Fixpoint afterAll (app : AppService) (reqs : list (string * World))
  : AppService :=
  match reqs with
  | [] => app
  | (url, w) :: rest => afterAll (after (handleRequest app url w)) rest
  end.

(** ** The earlier revision of AppService *)

Module Legacy.

(** The earlier class keeps one breaker per policy and a timeout policy,
    all built from the configuration by the field initialisers. *)
Record AppService : Type := mkApp {
  configHandlerService : ConfigHandlerService;
  consecutiveBreaker : CircuitBreakerPolicy;
  samplingBreaker : CircuitBreakerPolicy;
  timeout : Z
}.

(** [updateConfig]: rebuilds both breakers and the timeout policy. *)
Definition updateConfig (app : AppService) : AppService :=
  let cfg := configHandlerService app in
  mkApp cfg
    (circuitBreaker (resetDuration cfg)
       (ConsecutiveBreaker (consecutiveFailures cfg)))
    (circuitBreaker (resetDuration cfg)
       (SamplingBreaker (threshold cfg) (monitorDuration cfg)
          (minimumRequests cfg)))
    (timeoutDuration cfg).

(** The field initialisers build what [updateConfig] builds. *)
Definition newAppService (cfg : ConfigHandlerService) : AppService :=
  updateConfig
    (mkApp cfg (circuitBreaker 0 (ConsecutiveBreaker 0))
       (circuitBreaker 0 (ConsecutiveBreaker 0)) 0).

(** [this.configHandlerService.configWasUpdated = flag]. *)
Definition setConfigWasUpdated (flag : bool) (cfg : ConfigHandlerService)
  : ConfigHandlerService :=
  mkConfig (breakerType cfg) (timeoutDuration cfg) (resetDuration cfg)
    (monitorDuration cfg) (threshold cfg) (minimumRequests cfg)
    (consecutiveFailures cfg) (monitorUrl cfg) (databaseUrl cfg) flag.

(** [sendError(type, message, source, target)] of the earlier revision:
    it builds the log message itself. *)
Definition sendError (cfg : ConfigHandlerService) (now : Z) (type : LogType)
    (message source target : string) (reachable : bool)
  : JsValue * list Effect :=
  let logMsg :=
    JObj [("type", JEnum type);
          ("time", JNum now);
          ("source", JStr source);
          ("target", JStr target);
          ("message", JStr message)] in
  (logMsg,
   [HttpPost (monitorUrl cfg) logMsg;
    ConsoleLog
      (JStr (if reachable
             then "Report sent to monitor at " ++ monitorUrl cfg
             else "Monitor at " ++ monitorUrl cfg ++ " not available")%string)]).

(** [sendToDatabase]: one GET to [databaseUrl]; nothing is returned. *)
Definition sendToDatabase (cfg : ConfigHandlerService) (h : HttpOutcome)
  : Settled JsValue * list Effect :=
  match h with
  | HttpResolves status _ =>
      (Resolved JUndefined,
       HttpGet (databaseUrl cfg) ::
       (if status =? 200
        then [ConsoleLog (JStr "Request to database was successful")]
        else []))
  | HttpRejects message =>
      (Rejected (OtherError message), [HttpGet (databaseUrl cfg)])
  end.

(** [handleTimeout]: prints the configured duration, then runs
    [sendToDatabase] under the stored timeout policy. *)
Definition handleTimeout (app : AppService) (w : World)
  : Settled JsValue * list Effect :=
  let cfg := configHandlerService app in
  let '(r, tr) :=
    timeoutExecute (timeout app) (deadlineFirst w)
      (fun _ => sendToDatabase cfg (http w)) in
  (match r with
   | Resolved _ => Resolved JUndefined
   | Rejected e => Rejected e
   end,
   ConsoleLog (JNum (timeoutDuration cfg)) :: tr).

(** [JSON.parse] of the literal in [handleRequest]. *)
Definition returnString : JsValue :=
  JObj [("type", JStr "Success");
        ("message", JStr "Request to database was successful")].

Record Served : Type := mkServed {
  response : Settled JsValue;
  after : AppService;
  trace : list Effect
}.

(** [handleRequest] of the earlier revision: the breakers are rebuilt
    first when [configWasUpdated] is set, and the flag is cleared. *)
Definition handleRequest (app : AppService) (w : World) : Served :=
  let app1 :=
    if configWasUpdated (configHandlerService app)
    then
      let u := updateConfig app in
      mkApp (setConfigWasUpdated false (configHandlerService u))
        (consecutiveBreaker u) (samplingBreaker u) (timeout u)
    else app in
  let cfg := configHandlerService app1 in
  let consecutive := String.eqb (breakerType cfg) "consecutive" in
  let '(r, tr, b) :=
    execute
      (if consecutive then consecutiveBreaker app1 else samplingBreaker app1)
      (startedAt w) (settledAt w) (fun _ => handleTimeout app1 w) in
  let app2 :=
    if consecutive
    then mkApp cfg b (samplingBreaker app1) (timeout app1)
    else mkApp cfg (consecutiveBreaker app1) b (timeout app1) in
  match r with
  | Resolved _ => mkServed (Resolved returnString) app2 tr
  | Rejected error =>
      let '(v, tr') :=
        match error with
        | BrokenCircuitError =>
            sendError cfg (settledAt w) CB_OPEN "CircuitBreaker is open."
              "priceservice" "databaseservice" (monitorReachable w)
        | TaskCancelledError =>
            sendError cfg (settledAt w) TIMEOUT "Request was timed out."
              "priceservice" "databaseservice" (monitorReachable w)
        | OtherError _ =>
            sendError cfg (settledAt w) ERROR "Service is not available."
              "priceservice" "databaseservice" (monitorReachable w)
        end in
      mkServed (Resolved v) app2 (tr ++ tr')
  end.

End Legacy.

(** ** Auxiliary notions used in the statements *)

(** What a breaker was built with: the reset duration and the policy's
    own parameters, without its running state. *)
Inductive Parameters : Type :=
| ConsecutiveWith (reset n : Z)
| SamplingWith (reset : Z) (th : Q) (d m : Z).

Definition parameters (b : CircuitBreakerPolicy) : Parameters :=
  match policy b with
  | ConsecutivePolicy n _ => ConsecutiveWith (halfOpenAfter b) n
  | SamplingPolicy th d m _ => SamplingWith (halfOpenAfter b) th d m
  end.

(** With the monitor reachable or not, everything else unchanged. *)
Definition withMonitor (reachable : bool) (w : World) : World :=
  mkWorld (startedAt w) (settledAt w) (http w) (deadlineFirst w) reachable.

(** Number of failed calls among the served ones. *)
Definition failures (ss : list Served) : nat :=
  List.length (filter failed ss).

(** The field names of a failure event, in the order the source writes
    them. *)
Definition eventFields : list string :=
  ["type"; "time"; "message"; "source"; "detector"; "data"].

(** The outcome records a closed sampling breaker takes from a sequence of
    calls: one per call, stamped when the call settled. *)
Definition recordsOf (cfg : ConfigHandlerService)
    (reqs : list (string * World)) : list OutcomeRecord :=
  map (fun rq =>
         mkRecord (settledAt (snd rq))
           (isResolved (fst (handleTimeout cfg (fst rq) (snd rq)))))
      reqs.

(** All calls of a sequence settle within the window of length [d] that
    ends at [T]. *)
Definition settleWithin (T d : Z) (reqs : list (string * World)) : Prop :=
  Forall (fun rq => T - d < settledAt (snd rq) <= T) reqs.

(** Every call of a served sequence failed. *)
Definition allFailed (ss : list Served) : Prop :=
  Forall (fun s => failed s = true) ss.

(** What holds of a breaker built by [setupBreaker] for the consecutive
    policy with threshold [n], however many calls it has served one after
    the other: while closed it has counted fewer than [n] failures in a
    row. *)
Definition consecutiveInv (n reset : Z) (b : CircuitBreakerPolicy) : Prop :=
  halfOpenAfter b = reset
  /\ exists c,
       policy b = ConsecutivePolicy n c
       /\ ((state b = Closed /\ 0 <= c < n) \/ exists t, state b = Open t).

(** The failures in a row a closed consecutive breaker has counted. *)
Definition streak (b : CircuitBreakerPolicy) : option Z :=
  match state b, policy b with
  | Closed, ConsecutivePolicy _ c => Some c
  | _, _ => None
  end.

(** ** Sample configurations and worlds *)

Module Samples.

(** A consecutive breaker that opens after [n] failures in a row. *)
Definition consecutiveConfig (n reset : Z) : ConfigHandlerService :=
  mkConfig "consecutive" 500 reset 10000 (1 # 2) 10 n
    "http://localhost:3400" "http://localhost:3000" false.

(** A sampling breaker: half of at least ten requests within ten seconds. *)
Definition samplingConfig : ConfigHandlerService :=
  mkConfig "sampling" 500 1000 10000 (1 # 2) 10 3
    "http://localhost:3400" "http://localhost:3000" false.

(** A sampling breaker that a single failure opens: [minimumRequests] 1. *)
Definition eagerSampling : ConfigHandlerService :=
  mkConfig "sampling" 500 1000 10000 (1 # 2) 1 3
    "http://localhost:3400" "http://localhost:3000" false.

Definition balanceUrl : string := "http://localhost:3000/balance".

(** The downstream answers 200 with the payload 42 at time [t]. *)
Definition okAt (t : Z) : World :=
  mkWorld t t (HttpResolves 200 (JNum 42)) false true.

(** The downstream connection is refused at time [t]. *)
Definition refusedAt (t : Z) : World :=
  mkWorld t t (HttpRejects (JStr "connect ECONNREFUSED")) false true.

(** The downstream does not answer before the deadline at time [t]. *)
Definition slowAt (t : Z) : World :=
  mkWorld t t (HttpResolves 200 (JNum 42)) true true.

(** Ten calls, one per second: [k] refused connections, then answers. *)
Definition refusedThenOk (k : nat) : list (string * World) :=
  map (fun t => (balanceUrl,
                 if (t <? Z.of_nat k) then refusedAt (1000 * t)
                 else okAt (1000 * t)))
      [0; 1; 2; 3; 4; 5; 6; 7; 8; 9].

End Samples.

(** ** Further notions for the traces and for the earlier revision *)

(** Where the GET requests of a trace went, in order. *)
Fixpoint getUrls (tr : list Effect) : list string :=
  match tr with
  | [] => []
  | HttpGet url :: rest => url :: getUrls rest
  | _ :: rest => getUrls rest
  end.

(** Where the POST requests of a trace went, in order. *)
Fixpoint postUrls (tr : list Effect) : list string :=
  match tr with
  | [] => []
  | HttpPost url _ :: rest => url :: postUrls rest
  | _ :: rest => postUrls rest
  end.

(** The same world with another payload in the response of the GET. *)
Definition withPayload (payload : JsValue) (w : World) : World :=
  mkWorld (startedAt w) (settledAt w)
    (match http w with
     | HttpResolves status _ => HttpResolves status payload
     | HttpRejects message => HttpRejects message
     end)
    (deadlineFirst w) (monitorReachable w).

(** The type field of what a promise resolved with. *)
Definition typeOf (r : Settled JsValue) : option JsValue :=
  match r with
  | Resolved v => field "type" v
  | Rejected _ => None
  end.

(** A call of the earlier revision failed when what it resolved with is
    not the success object. *)
Definition legacyFailed (s : Legacy.Served) : bool :=
  match typeOf (Legacy.response s) with
  | Some (JStr "Success") => false
  | _ => true
  end.

(** The breaker the earlier revision runs a call through. *)
Definition legacySelected (app : Legacy.AppService) : CircuitBreakerPolicy :=
  if String.eqb (breakerType (Legacy.configHandlerService app)) "consecutive"
  then Legacy.consecutiveBreaker app
  else Legacy.samplingBreaker app.

(** The field names of a log message of the earlier revision. *)
Definition legacyFields : list string :=
  ["type"; "time"; "source"; "target"; "message"].

(** The error a promise rejected with, if it did. *)
Definition errorOf {T} (r : Settled T) : option JsError :=
  match r with
  | Resolved _ => None
  | Rejected e => Some e
  end.

(** ** When the circuit opened *)

(** A call was attempted when it made a GET to the downstream. *)
Definition attempted (s : Served) : bool :=
  negb (Nat.eqb (downstreamCalls (trace s)) 0).

(** The clock at which the last attempted call of a sequence settled, or
    [seen] if none of the calls was attempted. *)
Fixpoint lastAttempt (app : AppService) (reqs : list (string * World))
    (seen : option Z) : option Z :=
  match reqs with
  | [] => seen
  | (url, w) :: rest =>
      let s := handleRequest app url w in
      lastAttempt (after s) rest
        (if attempted s then Some (settledAt w) else seen)
  end.

(** ** Elementary facts *)

Ltac open_call :=
  unfold handleRequest, guardedCall, execute, handleTimeout, timeoutExecute,
    sendRequest, sendError, buildLog, successResponse in *.

Ltac split_status :=
  repeat match goal with
    | |- context [if ?s =? 200 then _ else _] => destruct (s =? 200) eqn:?
    | H : context [if ?s =? 200 then _ else _] |- _ =>
        destruct (s =? 200) eqn:?
    end.

Ltac split_call app w :=
  destruct (state (breaker app)) as [|?opened|];
  [ | destruct (startedAt w - _ <? halfOpenAfter (breaker app)) eqn:?| ];
  destruct (http w) as [?status ?data|?message] eqn:?;
  destruct (deadlineFirst w) eqn:?;
  split_status;
  cbn in *.

Lemma sendError_returns_log cfg log reachable :
  fst (sendError cfg log reachable) = log.
Proof. reflexivity. Qed.

Lemma downstreamCalls_app tr1 tr2 :
  downstreamCalls (tr1 ++ tr2) = (downstreamCalls tr1 + downstreamCalls tr2)%nat.
Proof.
  unfold downstreamCalls. now rewrite filter_app, length_app.
Qed.

Lemma posted_app tr1 tr2 :
  posted (tr1 ++ tr2) = (posted tr1 ++ posted tr2)%list.
Proof.
  induction tr1 as [|e tr1 IH]; [reflexivity|].
  destruct e; cbn; now rewrite IH.
Qed.

(** What [handleRequest] resolves with, posts and leaves behind, read off
    the guarded call. *)
Lemma failed_iff_rejected app url w :
  failed (handleRequest app url w)
  = negb (isResolved (fst (fst (guardedCall app url w)))).
Proof.
  unfold handleRequest.
  destruct (guardedCall app url w) as [[r tr] b]; cbn.
  destruct r as [data|e]; [reflexivity|].
  destruct e; reflexivity.
Qed.

Lemma response_of_guardedCall app url w :
  response (handleRequest app url w)
  = match fst (fst (guardedCall app url w)) with
    | Resolved data => Resolved (successResponse data)
    | Rejected e =>
        Resolved (buildLog (configHandlerService app) (settledAt w) e)
    end.
Proof.
  unfold handleRequest.
  destruct (guardedCall app url w) as [[r tr] b]; cbn.
  destruct r; reflexivity.
Qed.

Lemma posted_of_guardedCall app url w :
  posted (trace (handleRequest app url w))
  = match fst (fst (guardedCall app url w)) with
    | Resolved _ => []
    | Rejected e => [buildLog (configHandlerService app) (settledAt w) e]
    end.
Proof.
  open_call. split_call app w; reflexivity.
Qed.

Lemma after_of_guardedCall app url w :
  after (handleRequest app url w)
  = mkApp (configHandlerService app) (snd (guardedCall app url w)).
Proof.
  unfold handleRequest.
  destruct (guardedCall app url w) as [[r tr] b]; cbn.
  destruct r; reflexivity.
Qed.

Lemma buildLog_keys cfg now e : keys (buildLog cfg now e) = eventFields.
Proof. destruct e; reflexivity. Qed.

(** ** Properties of a single call *)

(** C10: [sendRequest] resolves with [send.data] whatever the status of
    the response, the status only decides whether a line is printed, and a
    rejected GET is passed on as it is; so a call that reached the
    downstream and beat the deadline succeeds exactly when the GET
    resolved, and is an ERROR event exactly when it rejected. *)
Theorem sendRequest_ignores_status :
  (forall url status data,
      fst (sendRequest url (HttpResolves status data)) = Resolved data)
  /\ (forall url status data,
      filter (fun e => negb (match e with ConsoleLog _ => true | _ => false end))
        (snd (sendRequest url (HttpResolves status data))) = [HttpGet url])
  /\ (forall url message,
      sendRequest url (HttpRejects message)
      = (Rejected (OtherError message), [HttpGet url]))
  /\ (forall app url w,
      downstreamCalls (trace (handleRequest app url w)) <> 0%nat ->
      deadlineFirst w = false ->
      match http w with
      | HttpResolves _ data =>
          response (handleRequest app url w) = Resolved (successResponse data)
      | HttpRejects _ =>
          exists log,
            response (handleRequest app url w) = Resolved log
            /\ field "type" log = Some (JEnum ERROR)
      end).
Proof.
  repeat split.
  - intros url status data. cbn. now destruct (status =? 200).
  - intros app url w Hcalls Hrace.
    open_call. split_call app w; try congruence; try (now elim Hcalls); eauto.
Qed.

Lemma sendRequest_ignores_status_witness :
  response (handleRequest (newAppService Samples.samplingConfig)
              Samples.balanceUrl
              (mkWorld 0 1 (HttpResolves 503 (JStr "unavailable")) false true))
  = Resolved (successResponse (JStr "unavailable")).
Proof.
  apply (proj2 (proj2 (proj2 sendRequest_ignores_status))
           (newAppService Samples.samplingConfig) Samples.balanceUrl
           (mkWorld 0 1 (HttpResolves 503 (JStr "unavailable")) false true)).
  - cbn. discriminate.
  - reflexivity.
Defined.

(** C5: when the downstream GET of a call resolves before the deadline,
    [handleRequest] resolves with the success object whose [result] is the
    payload of the response, unchanged; the timeout wrapper hands a
    completed call's result through. *)
Theorem success_passes_payload app url w status data :
  downstreamCalls (trace (handleRequest app url w)) <> 0%nat ->
  http w = HttpResolves status data ->
  deadlineFirst w = false ->
  handleTimeout (configHandlerService app) url w = sendRequest url (http w)
  /\ response (handleRequest app url w) = Resolved (successResponse data)
  /\ field "type" (successResponse data) = Some (JStr "Success")
  /\ field "result" (successResponse data) = Some data.
Proof.
  intros Hcalls Hhttp Hrace.
  repeat split.
  - unfold handleTimeout, timeoutExecute. rewrite Hrace.
    now destruct (sendRequest url (http w)).
  - open_call. split_call app w; try congruence; now elim Hcalls.
Qed.

Lemma success_passes_payload_witness :
  response (handleRequest (newAppService (Samples.consecutiveConfig 3 1000))
              Samples.balanceUrl (Samples.okAt 5))
  = Resolved (successResponse (JNum 42)).
Proof.
  apply (success_passes_payload
           (newAppService (Samples.consecutiveConfig 3 1000))
           Samples.balanceUrl (Samples.okAt 5) 200 (JNum 42)).
  - cbn. discriminate.
  - reflexivity.
  - reflexivity.
Defined.

(** C2: [handleRequest] always resolves, never rejects.  A failed call
    resolves with an event of exactly one type, fixed by the class of the
    error: [BrokenCircuitError] gives CB_OPEN and no GET was made,
    [TaskCancelledError] gives TIMEOUT after a GET that lost the race, any
    other error gives ERROR after a GET that rejected first. *)
Theorem failure_classified app url w :
  exists v,
    response (handleRequest app url w) = Resolved v
    /\ match fst (fst (guardedCall app url w)) with
       | Resolved data => v = successResponse data
       | Rejected BrokenCircuitError =>
           field "type" v = Some (JEnum CB_OPEN)
           /\ downstreamCalls (trace (handleRequest app url w)) = 0%nat
       | Rejected TaskCancelledError =>
           field "type" v = Some (JEnum TIMEOUT)
           /\ downstreamCalls (trace (handleRequest app url w)) = 1%nat
           /\ deadlineFirst w = true
       | Rejected (OtherError message) =>
           field "type" v = Some (JEnum ERROR)
           /\ downstreamCalls (trace (handleRequest app url w)) = 1%nat
           /\ deadlineFirst w = false
           /\ http w = HttpRejects message
       end
    /\ (failed (handleRequest app url w) = true ->
        exists! t, field "type" v = Some (JEnum t)).
Proof.
  open_call. split_call app w;
    (eexists; split; [reflexivity|]; split;
     [ repeat split; congruence
     | unfold failed; cbn; intros Hf; try discriminate Hf;
       (eexists; (split; [reflexivity | intros t' Ht'; congruence])) ]).
Qed.

Lemma failure_classified_witness :
  exists v,
    response (handleRequest (newAppService Samples.samplingConfig)
                Samples.balanceUrl (Samples.slowAt 7)) = Resolved v
    /\ field "type" v = Some (JEnum TIMEOUT).
Proof.
  destruct (failure_classified (newAppService Samples.samplingConfig)
              Samples.balanceUrl (Samples.slowAt 7)) as [v [Hv [Hclass _]]].
  exists v. split; [exact Hv|]. exact (proj1 Hclass).
Defined.

(** C7: every event POSTed to the monitor is an object with exactly the
    fields type, time, message, source, detector and data, and its type is
    CB_OPEN, TIMEOUT or ERROR. *)
Theorem event_shape app url w log :
  In log (posted (trace (handleRequest app url w))) ->
  keys log = eventFields
  /\ (field "type" log = Some (JEnum CB_OPEN)
      \/ field "type" log = Some (JEnum TIMEOUT)
      \/ field "type" log = Some (JEnum ERROR)).
Proof.
  rewrite posted_of_guardedCall.
  destruct (fst (fst (guardedCall app url w))) as [data|e]; cbn.
  - intros [].
  - intros [<-|[]]. split; [apply buildLog_keys|].
    destruct e; cbn; auto.
Qed.

Lemma event_shape_witness :
  keys (buildLog Samples.samplingConfig 9
          (OtherError (JStr "connect ECONNREFUSED"))) = eventFields.
Proof.
  apply (event_shape (newAppService Samples.samplingConfig)
           Samples.balanceUrl (Samples.refusedAt 9)
           (buildLog Samples.samplingConfig 9
              (OtherError (JStr "connect ECONNREFUSED")))).
  cbn. left. reflexivity.
Defined.

(** C8: a CB_OPEN event always carries [resetDuration] as [openTime] and
    [consecutiveFailures] as [failedResponses], both read from the
    configuration when the event is built, whichever breaker type is
    configured and whatever breaker is in use. *)
Theorem cb_open_event_data app url w log :
  In log (posted (trace (handleRequest app url w))) ->
  field "type" log = Some (JEnum CB_OPEN) ->
  field "data" log
  = Some (JObj [("openTime", JNum (resetDuration (configHandlerService app)));
                ("failedResponses",
                 JNum (consecutiveFailures (configHandlerService app)))]).
Proof.
  rewrite posted_of_guardedCall.
  destruct (fst (fst (guardedCall app url w))) as [data|e]; cbn.
  - intros [].
  - intros [<-|[]]. destruct e; cbn; intros Ht; now try discriminate Ht.
Qed.

Lemma cb_open_event_data_witness :
  let app := after (handleRequest (newAppService Samples.eagerSampling)
                      Samples.balanceUrl (Samples.refusedAt 0)) in
  breakerType (configHandlerService app) = "sampling"
  /\ field "data" (buildLog Samples.eagerSampling 1 BrokenCircuitError)
     = Some (JObj [("openTime", JNum 1000); ("failedResponses", JNum 3)]).
Proof.
  split; [reflexivity|].
  apply (cb_open_event_data
           (after (handleRequest (newAppService Samples.eagerSampling)
                     Samples.balanceUrl (Samples.refusedAt 0)))
           Samples.balanceUrl (Samples.okAt 1)
           (buildLog Samples.eagerSampling 1 BrokenCircuitError)).
  - vm_compute. left. reflexivity.
  - reflexivity.
Defined.

(** C9: on a failed call the value [handleRequest] resolves with is the
    log that was POSTed to the monitor, the one and only POST of the call;
    [sendError] returns its argument. *)
Theorem failure_returns_posted_log app url w :
  failed (handleRequest app url w) = true ->
  exists log e,
    log = buildLog (configHandlerService app) (settledAt w) e
    /\ response (handleRequest app url w) = Resolved log
    /\ posted (trace (handleRequest app url w)) = [log]
    /\ forall reachable,
         fst (sendError (configHandlerService app) log reachable) = log.
Proof.
  rewrite failed_iff_rejected, response_of_guardedCall, posted_of_guardedCall.
  destruct (fst (fst (guardedCall app url w))) as [data|e]; cbn.
  - discriminate.
  - intros _. exists (buildLog (configHandlerService app) (settledAt w) e), e.
    repeat split.
Qed.

Lemma failure_returns_posted_log_witness :
  exists log e,
    log = buildLog Samples.samplingConfig 4 e
    /\ response (handleRequest (newAppService Samples.samplingConfig)
                   Samples.balanceUrl (Samples.slowAt 4)) = Resolved log
    /\ posted (trace (handleRequest (newAppService Samples.samplingConfig)
                        Samples.balanceUrl (Samples.slowAt 4))) = [log]
    /\ forall reachable,
         fst (sendError Samples.samplingConfig log reachable) = log.
Proof.
  apply (failure_returns_posted_log (newAppService Samples.samplingConfig)
           Samples.balanceUrl (Samples.slowAt 4)).
  reflexivity.
Defined.

(** C6: whether the monitor can be reached changes neither what
    [handleRequest] resolves with nor the service it leaves behind, nor
    the requests made: the downstream is called at most once either way
    and the same event is POSTed once.  An unreachable monitor only
    shows as the printed line. *)
Theorem monitor_failure_swallowed app url w :
  let up := handleRequest app url (withMonitor true w) in
  let down := handleRequest app url (withMonitor false w) in
  response down = response up
  /\ after down = after up
  /\ filter isGet (trace down) = filter isGet (trace up)
  /\ posted (trace down) = posted (trace up)
  /\ (downstreamCalls (trace down) <= 1)%nat
  /\ (failed down = true ->
      In (ConsoleLog
            (JStr ("Monitor at " ++ monitorUrl (configHandlerService app)
                     ++ " not available")%string))
         (trace down)).
Proof.
  unfold withMonitor. open_call.
  cbn [startedAt settledAt http deadlineFirst monitorReachable].
  split_call app w;
    repeat split; auto; unfold failed; cbn; try discriminate;
    intros _; rewrite ?in_app_iff; cbn; auto 8.
Qed.

Lemma monitor_failure_swallowed_witness :
  response (handleRequest (newAppService Samples.samplingConfig)
              Samples.balanceUrl (withMonitor false (Samples.refusedAt 3)))
  = response (handleRequest (newAppService Samples.samplingConfig)
                Samples.balanceUrl (withMonitor true (Samples.refusedAt 3))).
Proof.
  exact (proj1 (monitor_failure_swallowed
                  (newAppService Samples.samplingConfig)
                  Samples.balanceUrl (Samples.refusedAt 3))).
Defined.

(** The breaker itself posts nothing. *)
Lemma execute_posts {T} b start finish
    (call : unit -> Settled T * list Effect) :
  posted (snd (call tt)) = [] ->
  posted (snd (fst (execute b start finish call))) = [].
Proof.
  intros Hcall. unfold execute.
  destruct (state b) as [|t|]; [| destruct (start - t <? halfOpenAfter b) |];
    try reflexivity;
    destruct (call tt) as [r tr]; try destruct (isResolved r); exact Hcall.
Qed.

Lemma legacy_handleTimeout_posts app w :
  posted (snd (Legacy.handleTimeout app w)) = [].
Proof.
  unfold Legacy.handleTimeout, timeoutExecute, Legacy.sendToDatabase.
  destruct (http w) as [status data|message]; destruct (deadlineFirst w);
    split_status; reflexivity.
Qed.

(** The earlier revision posted a different record: type, time, source,
    target and message, with the same three types. *)
Lemma legacy_event_shape app w log :
  In log (posted (Legacy.trace (Legacy.handleRequest app w))) ->
  keys log = ["type"; "time"; "source"; "target"; "message"]
  /\ (field "type" log = Some (JEnum CB_OPEN)
      \/ field "type" log = Some (JEnum TIMEOUT)
      \/ field "type" log = Some (JEnum ERROR)).
Proof.
  unfold Legacy.handleRequest.
  match goal with
  | |- context [execute ?b ?s ?f ?c] =>
      pose proof (execute_posts b s f c (legacy_handleTimeout_posts _ w)) as Htr;
      destruct (execute b s f c) as [[r tr] b']
  end.
  cbn [fst snd] in Htr.
  destruct r as [v|e]; [|destruct e];
    cbn [Legacy.trace Legacy.sendError];
    rewrite ?posted_app, ?Htr; cbn; intuition (subst; cbn; auto).
Qed.

(** ** Sequences of calls *)

Lemma serve_app app l1 l2 :
  serve app (l1 ++ l2) = (serve app l1 ++ serve (afterAll app l1) l2)%list.
Proof.
  revert app. induction l1 as [|[url w] l1 IH]; intros app; cbn.
  - reflexivity.
  - now rewrite IH.
Qed.

Lemma afterAll_app app l1 l2 :
  afterAll app (l1 ++ l2) = afterAll (afterAll app l1) l2.
Proof.
  revert app. induction l1 as [|[url w] l1 IH]; intros app; cbn; auto.
Qed.

Lemma failures_app s1 s2 :
  failures (s1 ++ s2) = (failures s1 + failures s2)%nat.
Proof. unfold failures. now rewrite filter_app, length_app. Qed.

Lemma serve_length app reqs : List.length (serve app reqs) = List.length reqs.
Proof.
  revert app. induction reqs as [|[url w] reqs IH]; intros app; cbn; auto.
Qed.

Lemma afterAll_config app reqs :
  configHandlerService (afterAll app reqs) = configHandlerService app.
Proof.
  revert app. induction reqs as [|[url w] reqs IH]; intros app; cbn.
  - reflexivity.
  - rewrite IH. now rewrite after_of_guardedCall.
Qed.

(** A call that finds the breaker closed reaches the downstream once; its
    outcome is recorded and the policy decides whether the circuit opens. *)
Lemma closed_call app url w :
  state (breaker app) = Closed ->
  let ok := isResolved (fst (handleTimeout (configHandlerService app) url w)) in
  let p := recordOutcome (settledAt w) ok (policy (breaker app)) in
  after (handleRequest app url w)
  = mkApp (configHandlerService app)
      (mkBreaker (halfOpenAfter (breaker app)) p
         (if shouldOpen (settledAt w) p then Open (settledAt w) else Closed))
  /\ failed (handleRequest app url w) = negb ok
  /\ downstreamCalls (trace (handleRequest app url w)) = 1%nat.
Proof.
  intros Hst. rewrite after_of_guardedCall, failed_iff_rejected.
  open_call. rewrite Hst.
  destruct (http w) as [status data|message]; destruct (deadlineFirst w);
    split_status; cbn; auto.
Qed.

(** ** The sampling policy *)

Lemma filter_all {A} (f : A -> bool) (l : list A) :
  Forall (fun x => f x = true) l -> filter f l = l.
Proof.
  induction 1 as [|x l Hx _ IH]; cbn; [reflexivity|].
  now rewrite Hx, IH.
Qed.

Lemma filter_idem {A} (f : A -> bool) (l : list A) :
  filter f (filter f l) = filter f l.
Proof.
  induction l as [|x l IH]; cbn; [reflexivity|].
  destruct (f x) eqn:Hx; cbn; [|exact IH].
  now rewrite Hx, IH.
Qed.

Lemma totalIn_nonneg w : 0 <= totalIn w.
Proof. unfold totalIn. lia. Qed.

Lemma shouldOpen_sampling now th d m w :
  shouldOpen now (SamplingPolicy th d m w) = true <->
  let recent := filter (withinWindow now d) w in
  0 < totalIn recent
  /\ m <= totalIn recent
  /\ (th <= inject_Z (failuresIn recent) / inject_Z (totalIn recent))%Q.
Proof.
  cbn. rewrite !andb_true_iff, negb_true_iff, Z.eqb_neq, Z.leb_le, Qle_bool_iff.
  pose proof (totalIn_nonneg (filter (withinWindow now d) w)).
  intuition lia.
Qed.

Lemma failuresIn_app w1 w2 :
  failuresIn (w1 ++ w2) = failuresIn w1 + failuresIn w2.
Proof. unfold failuresIn. rewrite filter_app, length_app. lia. Qed.

Lemma totalIn_app w1 w2 : totalIn (w1 ++ w2) = totalIn w1 + totalIn w2.
Proof. unfold totalIn. rewrite length_app. lia. Qed.

Lemma recordsOf_within cfg T d reqs :
  settleWithin T d reqs ->
  Forall (fun r => T - d < recordedAt r <= T) (recordsOf cfg reqs).
Proof.
  unfold settleWithin, recordsOf. rewrite Forall_map. cbn. auto.
Qed.

(** While fewer than [minimumRequests] records are in the window, a closed
    sampling breaker stays closed, keeps every record and lets every call
    through. *)
Lemma sampling_below_minimum cfg reset th d m T reqs : forall w0,
  settleWithin T d reqs ->
  Forall (fun r => T - d < recordedAt r <= T) w0 ->
  totalIn w0 + Z.of_nat (List.length reqs) < m ->
  let app := mkApp cfg (mkBreaker reset (SamplingPolicy th d m w0) Closed) in
  afterAll app reqs
  = mkApp cfg
      (mkBreaker reset (SamplingPolicy th d m (w0 ++ recordsOf cfg reqs)) Closed)
  /\ Z.of_nat (failures (serve app reqs)) = failuresIn (recordsOf cfg reqs)
  /\ Forall (fun s => downstreamCalls (trace s) = 1%nat) (serve app reqs).
Proof.
  induction reqs as [|[url w] reqs IH]; intros w0 Hreqs Hw0 Hlen app.
  - cbn. rewrite app_nil_r. auto.
  - inversion Hreqs as [|rq l Hw Hrest]; subst. cbn in Hw.
    destruct (closed_call app url w eq_refl) as [Hafter [Hfailed Hcalls]].
    cbn in Hafter, Hfailed, Hcalls.
    set (ok := isResolved (fst (handleTimeout cfg url w))) in *.
    assert (Hkeep : Forall (fun r => T - d < recordedAt r <= T)
                      (w0 ++ [mkRecord (settledAt w) ok])).
    { apply Forall_app. split; [exact Hw0|]. constructor; cbn; auto. }
    assert (Hfilter : filter (withinWindow (settledAt w) d)
                        (w0 ++ [mkRecord (settledAt w) ok])
                      = (w0 ++ [mkRecord (settledAt w) ok])%list).
    { apply filter_all. eapply Forall_impl; [|exact Hkeep].
      intros r Hr. unfold withinWindow. apply Z.ltb_lt. cbv beta in Hr. lia. }
    rewrite !Hfilter in Hafter.
    assert (Hclosed : (m <=? totalIn (w0 ++ [mkRecord (settledAt w) ok])) = false).
    { apply Z.leb_gt. rewrite totalIn_app. cbn in Hlen |- *.
      unfold totalIn in *. cbn. lia. }
    rewrite Hclosed, andb_false_r in Hafter. cbn in Hafter.
    cbn [afterAll serve]. rewrite Hafter.
    destruct (IH (w0 ++ [mkRecord (settledAt w) ok])%list Hrest Hkeep)
      as [IHa [IHf IHc]].
    { rewrite totalIn_app. unfold totalIn in *. cbn in Hlen |- *. lia. }
    cbn zeta in IHa, IHf, IHc.
    split; [|split].
    + rewrite IHa. cbn [recordsOf map fst snd]. fold ok.
      now rewrite <- app_assoc.
    + change (recordsOf cfg ((url, w) :: reqs))
        with (mkRecord (settledAt w) ok :: recordsOf cfg reqs).
      change (mkRecord (settledAt w) ok :: recordsOf cfg reqs)
        with ([mkRecord (settledAt w) ok] ++ recordsOf cfg reqs)%list.
      rewrite failuresIn_app, <- IHf.
      unfold failures at 1. cbn [filter]. fold app. rewrite Hfailed.
      fold (failures (serve (mkApp cfg
              (mkBreaker reset
                 (SamplingPolicy th d m (w0 ++ [mkRecord (settledAt w) ok]))
                 Closed)) reqs)).
      unfold failuresIn. destruct ok; cbn [negb filter succeeded List.length];
        unfold failures; lia.
    + constructor; [exact Hcalls | exact IHc].
Qed.

Lemma sampling_rate_examples now d w f :
  totalIn (filter (withinWindow now d) w) = 10 ->
  failuresIn (filter (withinWindow now d) w) = f ->
  shouldOpen now (SamplingPolicy (1 # 2) d 10 w) = Qle_bool (1 # 2) (inject_Z f / 10).
Proof.
  intros Htotal Hfail. cbn. rewrite Htotal, Hfail. reflexivity.
Qed.

Lemma newAppService_sampling cfg :
  String.eqb (breakerType cfg) "consecutive" = false ->
  newAppService cfg
  = mkApp cfg
      (mkBreaker (resetDuration cfg)
         (SamplingPolicy (threshold cfg) (monitorDuration cfg)
            (minimumRequests cfg) [])
         Closed).
Proof.
  intros Hty. unfold newAppService, setupBreaker. cbn. now rewrite Hty.
Qed.

(** Ten calls through a fresh sampling breaker with [minimumRequests] 10,
    all settling inside one window: the breaker ends with all ten records
    and its state is what the policy says of them. *)
Lemma sampling_ten_calls cfg pre url w :
  String.eqb (breakerType cfg) "consecutive" = false ->
  minimumRequests cfg = 10 ->
  List.length pre = 9%nat ->
  settleWithin (settledAt w) (monitorDuration cfg) pre ->
  let reqs := (pre ++ [(url, w)])%list in
  let p := SamplingPolicy (threshold cfg) (monitorDuration cfg) 10
             (recordsOf cfg reqs) in
  breaker (afterAll (newAppService cfg) reqs)
  = mkBreaker (resetDuration cfg) p
      (if shouldOpen (settledAt w) p then Open (settledAt w) else Closed)
  /\ filter (withinWindow (settledAt w) (monitorDuration cfg)) (recordsOf cfg reqs)
     = recordsOf cfg reqs
  /\ totalIn (recordsOf cfg reqs) = 10
  /\ failuresIn (recordsOf cfg reqs)
     = Z.of_nat (failures (serve (newAppService cfg) reqs)).
Proof.
  intros Hty Hmin Hlen Hpre reqs p.
  assert (Hd : 0 < monitorDuration cfg).
  { destruct pre as [|rq pre']; [discriminate Hlen|].
    inversion Hpre; subst. lia. }
  rewrite (newAppService_sampling cfg Hty) in *. rewrite Hmin in *.
  destruct (sampling_below_minimum cfg (resetDuration cfg) (threshold cfg)
              (monitorDuration cfg) 10 (settledAt w) pre []
              Hpre (Forall_nil _)) as [Hafter [Hfail Hcalls]].
  { rewrite Hlen. cbn. lia. }
  cbn zeta in Hafter, Hfail. cbn [app] in Hafter.
  assert (Hall : Forall (fun r => settledAt w - monitorDuration cfg
                                  < recordedAt r <= settledAt w)
                   (recordsOf cfg reqs)).
  { apply recordsOf_within. unfold reqs, settleWithin. apply Forall_app.
    split; [exact Hpre|]. constructor; [cbn; lia | constructor]. }
  assert (Hfilter : filter (withinWindow (settledAt w) (monitorDuration cfg))
                      (recordsOf cfg reqs) = recordsOf cfg reqs).
  { apply filter_all. eapply Forall_impl; [|exact Hall].
    intros r Hr. unfold withinWindow. apply Z.ltb_lt. cbv beta in Hr. lia. }
  assert (Hrecs : recordsOf cfg reqs
                  = (recordsOf cfg pre
                     ++ [mkRecord (settledAt w)
                           (isResolved (fst (handleTimeout cfg url w)))])%list).
  { unfold reqs, recordsOf. now rewrite map_app. }
  unfold reqs at 1. rewrite afterAll_app, Hafter. cbn [afterAll].
  match goal with
  | |- context [handleRequest ?a url w] =>
      destruct (closed_call a url w eq_refl) as [Hlast [Hfailed _]]
  end.
  cbn in Hlast, Hfailed. rewrite <- Hrecs, Hfilter in Hlast.
  split; [|split; [|split]].
  - rewrite Hlast. reflexivity.
  - exact Hfilter.
  - rewrite Hrecs, totalIn_app. unfold totalIn, recordsOf.
    rewrite length_map, Hlen. reflexivity.
  - unfold reqs at 2. rewrite serve_app, failures_app, Hafter. cbn [serve].
    unfold failures at 2. cbn [filter]. rewrite Hfailed.
    rewrite Hrecs, failuresIn_app, <- Hfail.
    unfold failuresIn.
    destruct (isResolved (fst (handleTimeout cfg url w)));
      cbn [negb filter succeeded List.length]; lia.
Qed.

(** C3: a sampling breaker opens only if the records within the trailing
    window number at least [minimumSampleSize] and failures / total is at
    least [failureRateThreshold]; an empty window never opens.  With
    [minimumSampleSize] 10 and [failureRateThreshold] 0.5, ten records in
    the window with 4 failures do not open and with 5 failures do, both for
    the policy alone and for ten calls through a freshly built breaker
    that all settle within one window. *)
Theorem sampling_opens_on_rate :
  (forall now th d m w,
      shouldOpen now (SamplingPolicy th d m w) = true ->
      let recent := filter (withinWindow now d) w in
      m <= totalIn recent
      /\ (th <= inject_Z (failuresIn recent) / inject_Z (totalIn recent))%Q)
  /\ (forall now th d m w,
      filter (withinWindow now d) w = [] ->
      shouldOpen now (SamplingPolicy th d m w) = false)
  /\ (forall app url w th d m w0,
      state (breaker app) = Closed ->
      policy (breaker app) = SamplingPolicy th d m w0 ->
      state (breaker (after (handleRequest app url w))) <> Closed ->
      exists recent,
        policy (breaker (after (handleRequest app url w)))
        = SamplingPolicy th d m recent
        /\ m <= totalIn recent
        /\ (th <= inject_Z (failuresIn recent) / inject_Z (totalIn recent))%Q)
  /\ (forall now d w,
      totalIn (filter (withinWindow now d) w) = 10 ->
      (failuresIn (filter (withinWindow now d) w) = 4 ->
       shouldOpen now (SamplingPolicy (1 # 2) d 10 w) = false)
      /\ (failuresIn (filter (withinWindow now d) w) = 5 ->
          shouldOpen now (SamplingPolicy (1 # 2) d 10 w) = true))
  /\ (forall cfg pre url w,
      String.eqb (breakerType cfg) "consecutive" = false ->
      threshold cfg = 1 # 2 ->
      minimumRequests cfg = 10 ->
      List.length pre = 9%nat ->
      settleWithin (settledAt w) (monitorDuration cfg) pre ->
      let reqs := (pre ++ [(url, w)])%list in
      let served := serve (newAppService cfg) reqs in
      let b := breaker (afterAll (newAppService cfg) reqs) in
      (failures served = 4%nat -> state b = Closed)
      /\ (failures served = 5%nat -> state b = Open (settledAt w))).
Proof.
  split; [|split; [|split; [|split]]].
  - intros now th d m w Hopen. apply shouldOpen_sampling in Hopen.
    cbv zeta in *. tauto.
  - intros now th d m w Hempty. cbn. now rewrite Hempty.
  - intros app url w th d m w0 Hst Hpol Hopened.
    destruct (closed_call app url w Hst) as [Hafter _]. cbn zeta in Hafter.
    rewrite Hafter in *. cbn [breaker state policy] in *. rewrite Hpol in *.
    cbn [recordOutcome] in *.
    eexists. split; [reflexivity|].
    match type of Hopened with
    | (if ?c then _ else _) <> _ => destruct c eqn:Hc; [|now elim Hopened]
    end.
    apply shouldOpen_sampling in Hc. cbn zeta in Hc.
    rewrite filter_idem in Hc. tauto.
  - intros now d w Htotal.
    split; intros Hfail; now rewrite (sampling_rate_examples now d w _ Htotal Hfail).
  - intros cfg pre url w Hty Hth Hmin Hlen Hpre reqs served b.
    destruct (sampling_ten_calls cfg pre url w Hty Hmin Hlen Hpre)
      as [Hb [Hfilter [Htotal Hfail]]].
    cbn zeta in Hb, Hfilter, Htotal, Hfail.
    fold reqs in Hb, Hfilter, Htotal, Hfail. fold served in Hfail.
    unfold b. rewrite Hb, Hth. cbn [state].
    split; intros Hcount; rewrite Hcount in Hfail;
      rewrite (sampling_rate_examples (settledAt w) (monitorDuration cfg)
                 (recordsOf cfg reqs) (failuresIn (recordsOf cfg reqs)))
        by (rewrite Hfilter; auto);
      rewrite Hfail; reflexivity.
Qed.

Lemma sampling_opens_on_rate_witness :
  state (breaker (afterAll (newAppService Samples.samplingConfig)
                    (Samples.refusedThenOk 5))) = Open 9000
  /\ state (breaker (afterAll (newAppService Samples.samplingConfig)
                       (Samples.refusedThenOk 4))) = Closed.
Proof.
  split.
  - apply (proj2 (proj2 (proj2 (proj2 sampling_opens_on_rate)))
             Samples.samplingConfig (firstn 9 (Samples.refusedThenOk 5))
             Samples.balanceUrl (Samples.okAt 9000)
             eq_refl eq_refl eq_refl eq_refl).
    + unfold settleWithin. repeat constructor; cbn; lia.
    + reflexivity.
  - apply (proj2 (proj2 (proj2 (proj2 sampling_opens_on_rate)))
             Samples.samplingConfig (firstn 9 (Samples.refusedThenOk 4))
             Samples.balanceUrl (Samples.okAt 9000)
             eq_refl eq_refl eq_refl eq_refl).
    + unfold settleWithin. repeat constructor; cbn; lia.
    + reflexivity.
Defined.

(** ** The consecutive policy *)

Lemma newAppService_consecutive cfg :
  breakerType cfg = "consecutive" ->
  newAppService cfg
  = mkApp cfg
      (mkBreaker (resetDuration cfg)
         (ConsecutivePolicy (consecutiveFailures cfg) 0) Closed).
Proof.
  intros Hty. unfold newAppService, setupBreaker. cbn. now rewrite Hty.
Qed.

(** A call that finds the breaker open before the reset timer has elapsed
    is rejected: a CB_OPEN event, no GET, the breaker untouched. *)
Lemma open_call_rejected app url w t :
  state (breaker app) = Open t ->
  startedAt w - t < halfOpenAfter (breaker app) ->
  response (handleRequest app url w)
  = Resolved (buildLog (configHandlerService app) (settledAt w)
                BrokenCircuitError)
  /\ filter isGet (trace (handleRequest app url w)) = []
  /\ after (handleRequest app url w) = app.
Proof.
  intros Hst Hlt. apply Z.ltb_lt in Hlt.
  open_call. rewrite Hst, Hlt. cbn. destruct app; auto.
Qed.

(** One call keeps the invariant; a failed one brings a closed breaker one
    failure closer to opening and leaves an open one open; a successful
    one leaves the count at 0. *)
Lemma consecutive_step n reset app url w :
  1 <= n ->
  consecutiveInv n reset (breaker app) ->
  let b' := breaker (after (handleRequest app url w)) in
  consecutiveInv n reset b'
  /\ (failed (handleRequest app url w) = true ->
      (exists t, state b' = Open t)
      \/ (exists c, streak (breaker app) = Some c /\ streak b' = Some (c + 1)))
  /\ (failed (handleRequest app url w) = false ->
      policy b' = ConsecutivePolicy n 0).
Proof.
  intros Hn [Hreset [c [Hpol Hcase]]] b'. subst b'.
  rewrite after_of_guardedCall, failed_iff_rejected.
  unfold consecutiveInv, streak, guardedCall, execute.
  destruct Hcase as [[Hst Hc]|[t Hst]]; rewrite Hst.
  - destruct (handleTimeout (configHandlerService app) url w) as [r tr].
    rewrite Hpol. destruct r as [data|e]; cbn.
    + destruct (n <=? 0) eqn:Hle; [apply Z.leb_le in Hle; lia|].
      split; [|split]; [| discriminate | reflexivity].
      split; [exact Hreset|]. exists 0. split; [reflexivity|].
      left. split; [reflexivity|lia].
    + destruct (n <=? c + 1) eqn:Hle; (split; [|split]); try discriminate.
      * split; [exact Hreset|]. exists (c + 1). split; [reflexivity|].
        right. now exists (settledAt w).
      * intros _. left. now exists (settledAt w).
      * apply Z.leb_gt in Hle. split; [exact Hreset|].
        exists (c + 1). split; [reflexivity|]. left. split; [reflexivity|lia].
      * intros _. right. now exists c.
  - destruct (startedAt w - t <? halfOpenAfter (breaker app)); cbn.
    + rewrite Hst. split; [|split]; try discriminate.
      * split; [exact Hreset|]. exists c. split; [exact Hpol|].
        right. now exists t.
      * intros _. left. now exists t.
    + destruct (handleTimeout (configHandlerService app) url w) as [r tr].
      rewrite Hpol. destruct r as [data|e]; cbn.
      * split; [|split]; [| discriminate | reflexivity].
        split; [exact Hreset|]. exists 0. split; [reflexivity|].
        left. split; [reflexivity|lia].
      * split; [|split]; try discriminate.
        -- split; [exact Hreset|]. exists c. split; [reflexivity|].
           right. now exists (settledAt w).
        -- intros _. left. now exists (settledAt w).
Qed.

Lemma consecutive_reachable cfg history :
  breakerType cfg = "consecutive" ->
  1 <= consecutiveFailures cfg ->
  consecutiveInv (consecutiveFailures cfg) (resetDuration cfg)
    (breaker (afterAll (newAppService cfg) history)).
Proof.
  intros Hty Hn.
  assert (Hinit : consecutiveInv (consecutiveFailures cfg) (resetDuration cfg)
                    (breaker (newAppService cfg))).
  { rewrite (newAppService_consecutive cfg Hty). split; [reflexivity|].
    exists 0. split; [reflexivity|]. left. cbn. split; [reflexivity|lia]. }
  generalize dependent (newAppService cfg).
  induction history as [|[url w] history IH]; intros app Hinv; cbn.
  - exact Hinv.
  - apply IH. now apply consecutive_step.
Qed.

(** After [k] failed calls in a row the breaker is open, or it is still
    closed and its count has grown by [k]. *)
Lemma consecutive_failures_count n reset reqs : forall app,
  1 <= n ->
  consecutiveInv n reset (breaker app) ->
  allFailed (serve app reqs) ->
  consecutiveInv n reset (breaker (afterAll app reqs))
  /\ ((exists t, state (breaker (afterAll app reqs)) = Open t)
      \/ (exists c, streak (breaker app) = Some c
                    /\ streak (breaker (afterAll app reqs))
                       = Some (c + Z.of_nat (List.length reqs)))).
Proof.
  induction reqs as [|[url w] reqs IH]; intros app Hn Hinv Hfail.
  - cbn. split; [exact Hinv|].
    destruct Hinv as [_ [c [Hpol [[Hst _]|[t Hst]]]]]; [right|left; eauto].
    exists c. unfold streak. rewrite Hst, Hpol. split; f_equal; lia.
  - cbn [serve] in Hfail. inversion Hfail as [|s ss Hhead Htail]; subst.
    destruct (consecutive_step _ _ app url w Hn Hinv) as [Hinv' [Hstep _]].
    cbn zeta in Hinv', Hstep. specialize (Hstep Hhead).
    destruct (IH _ Hn Hinv' Htail) as [Hinv'' Hrest].
    cbn [afterAll]. split; [exact Hinv''|].
    destruct Hrest as [Hopen|[c' [Hc' Hend]]]; [left; exact Hopen|].
    destruct Hstep as [[t Hopen]|[c [Hc Hnext]]].
    + unfold streak in Hc'. rewrite Hopen in Hc'. discriminate.
    + right. exists c. split; [exact Hc|].
      rewrite Hnext in Hc'. injection Hc' as <-. rewrite Hend. f_equal.
      cbn [List.length]. lia.
Qed.

(** A call that finds the breaker open after the reset timer has elapsed
    is the probe: it reaches the downstream once, and its outcome closes
    the circuit or reopens it at the time the call settled. *)
Lemma probe_call app url w t :
  state (breaker app) = Open t ->
  halfOpenAfter (breaker app) <= startedAt w - t ->
  let ok := isResolved (fst (handleTimeout (configHandlerService app) url w)) in
  downstreamCalls (trace (handleRequest app url w)) = 1%nat
  /\ failed (handleRequest app url w) = negb ok
  /\ state (breaker (after (handleRequest app url w)))
     = if ok then Closed else Open (settledAt w).
Proof.
  intros Hst Hge. apply Z.ltb_ge in Hge.
  rewrite after_of_guardedCall, failed_iff_rejected.
  open_call. rewrite Hst, Hge.
  destruct (http w) as [status data|message]; destruct (deadlineFirst w);
    split_status; cbn; auto.
Qed.

(** Whenever a call leaves the circuit open, it opened when that call
    settled if the call was attempted, and was open before otherwise. *)
Lemma call_opening app url w :
  state (breaker app) <> HalfOpen ->
  let s := handleRequest app url w in
  state (breaker (after s)) <> HalfOpen
  /\ forall t,
       state (breaker (after s)) = Open t ->
       if attempted s then t = settledAt w else state (breaker app) = Open t.
Proof.
  intros Hhalf s. subst s. unfold attempted.
  destruct (state (breaker app)) as [|t0|] eqn:Hst; [| |now elim Hhalf].
  - destruct (closed_call app url w Hst) as [Hafter [_ Hcalls]].
    cbn zeta in Hafter. rewrite Hafter, Hcalls. cbn.
    destruct (shouldOpen _ _); split; try discriminate; congruence.
  - destruct (Z.lt_ge_cases (startedAt w - t0) (halfOpenAfter (breaker app)))
      as [Hlt|Hge].
    + destruct (open_call_rejected app url w t0 Hst Hlt) as [_ [Hget Hafter]].
      unfold downstreamCalls. rewrite Hafter, Hget, Hst. cbn.
      split; [discriminate | auto].
    + destruct (probe_call app url w t0 Hst Hge) as [Hcalls [_ Hafter]].
      cbn zeta in Hafter. rewrite Hafter, Hcalls. cbn.
      destruct (isResolved _); split; try discriminate; congruence.
Qed.

(** An open circuit has been open since the last attempted call settled. *)
Lemma open_since_last_attempt reqs : forall app seen,
  state (breaker app) <> HalfOpen ->
  (forall t, state (breaker app) = Open t -> seen = Some t) ->
  forall t,
    state (breaker (afterAll app reqs)) = Open t ->
    lastAttempt app reqs seen = Some t.
Proof.
  induction reqs as [|[url w] reqs IH]; intros app seen Hhalf Hseen t Hopen.
  - cbn in *. auto.
  - cbn [afterAll lastAttempt] in *.
    destruct (call_opening app url w Hhalf) as [Hhalf' Hstep].
    cbn zeta in Hhalf', Hstep.
    apply (IH _ _ Hhalf'); [|exact Hopen].
    intros t' Ht'. specialize (Hstep t' Ht').
    destruct (attempted (handleRequest app url w)); [now subst|auto].
Qed.

(** Failures in a row that stay below the threshold leave a closed
    breaker closed and are all counted. *)
Lemma failures_below_threshold n reset reqs : forall cfg c,
  c + Z.of_nat (List.length reqs) < n ->
  let app := mkApp cfg (mkBreaker reset (ConsecutivePolicy n c) Closed) in
  allFailed (serve app reqs) ->
  afterAll app reqs
  = mkApp cfg
      (mkBreaker reset
         (ConsecutivePolicy n (c + Z.of_nat (List.length reqs))) Closed).
Proof.
  induction reqs as [|[url w] reqs IH]; intros cfg c Hlt app Hfail.
  - cbn. now rewrite Z.add_0_r.
  - cbn [serve] in Hfail. inversion Hfail as [|s ss Hhead Htail]; subst.
    destruct (closed_call app url w eq_refl) as [Hafter [Hfailed _]].
    cbn in Hafter, Hfailed. rewrite Hfailed in Hhead.
    apply negb_true_iff in Hhead. rewrite Hhead in Hafter.
    cbn [List.length] in Hlt.
    destruct (n <=? c + 1) eqn:Hle; [apply Z.leb_le in Hle; lia|].
    cbn [afterAll]. rewrite Hafter in Htail |- *.
    rewrite (IH cfg (c + 1)); [| lia | exact Htail].
    cbn [List.length]. do 3 f_equal. lia.
Qed.

(** From a freshly built consecutive breaker, the N-th failure in a row
    opens the circuit when it settles. *)
Lemma nth_failure_opens cfg pre url w :
  breakerType cfg = "consecutive" ->
  Z.of_nat (List.length (pre ++ [(url, w)])) = consecutiveFailures cfg ->
  allFailed (serve (newAppService cfg) (pre ++ [(url, w)])) ->
  state (breaker (afterAll (newAppService cfg) (pre ++ [(url, w)])))
  = Open (settledAt w).
Proof.
  intros Hty Hlen Hfail.
  rewrite (newAppService_consecutive cfg Hty) in *.
  rewrite length_app in Hlen. cbn [List.length] in Hlen.
  unfold allFailed in Hfail. rewrite serve_app in Hfail.
  apply Forall_app in Hfail. destruct Hfail as [Hpre Hlast].
  rewrite afterAll_app.
  rewrite (failures_below_threshold (consecutiveFailures cfg)
             (resetDuration cfg) pre cfg 0) in Hlast |- *;
    [| lia | exact Hpre | lia | exact Hpre].
  rewrite Z.add_0_l in Hlast |- *.
  cbn [serve afterAll] in Hlast |- *.
  inversion Hlast as [|s ss Hhead _]; subst.
  match goal with
  | |- context [handleRequest ?a url w] =>
      destruct (closed_call a url w eq_refl) as [Hafter [Hfailed _]]
  end.
  cbn in Hafter, Hfailed. rewrite Hfailed in Hhead.
  apply negb_true_iff in Hhead. rewrite Hhead in Hafter.
  rewrite Hafter. cbn [breaker state].
  destruct (consecutiveFailures cfg
            <=? Z.of_nat (List.length pre) + 1) eqn:Hle;
    [reflexivity | apply Z.leb_gt in Hle; lia].
Qed.

(** After N failed calls in a row the circuit is open and the breaker is
    as [setupBreaker] built it. *)
Lemma failures_leave_open cfg history reqs :
  breakerType cfg = "consecutive" ->
  1 <= consecutiveFailures cfg ->
  Z.of_nat (List.length reqs) = consecutiveFailures cfg ->
  let app := afterAll (newAppService cfg) history in
  allFailed (serve app reqs) ->
  halfOpenAfter (breaker (afterAll app reqs)) = resetDuration cfg
  /\ exists t, state (breaker (afterAll app reqs)) = Open t.
Proof.
  intros Hty Hn Hlen app Hfail.
  pose proof (consecutive_reachable cfg history Hty Hn) as Hinv.
  fold app in Hinv.
  destruct (consecutive_failures_count _ _ reqs app Hn Hinv Hfail)
    as [Hinv' [[t Hopen]|[c [Hc Hend]]]].
  - destruct Hinv' as [Hreset _]. eauto.
  - exfalso.
    destruct Hinv as [_ [c0 [Hpol0 [[Hst0 Hc0]|[t0 Hst0]]]]];
      unfold streak in Hc; rewrite Hst0 in Hc; [|discriminate].
    rewrite Hpol0 in Hc. injection Hc as <-.
    destruct Hinv' as [_ [c1 [Hpol1 [[Hst1 Hc1]|[t1 Hst1]]]]];
      unfold streak in Hend; rewrite Hst1 in Hend; [|discriminate].
    rewrite Hpol1 in Hend. injection Hend as ->. lia.
Qed.

Lemma newAppService_config cfg :
  configHandlerService (newAppService cfg) = cfg.
Proof.
  unfold newAppService, setupBreaker. cbn.
  now destruct (String.eqb (breakerType cfg) "consecutive").
Qed.

(** C1: with the consecutive breaker and [consecutiveFailures] N >= 1,
    after any N failed calls in a row the circuit is open, whatever was
    served before, and it has been open since the last attempted call
    settled; with nothing served before, that is when the N-th failure
    settled.  A further call that starts before [resetDuration] has
    elapsed since then is rejected with a CB_OPEN event, makes no GET and
    changes nothing; one that starts later is the probe and reaches the
    downstream.  Any successful call leaves the failure count at 0. *)
Theorem consecutive_failures_open cfg history reqs :
  breakerType cfg = "consecutive" ->
  1 <= consecutiveFailures cfg ->
  Z.of_nat (List.length reqs) = consecutiveFailures cfg ->
  let fresh := newAppService cfg in
  let app := afterAll fresh history in
  let opened := afterAll app reqs in
  allFailed (serve app reqs) ->
  (exists t,
      lastAttempt fresh (history ++ reqs) None = Some t
      /\ state (breaker opened) = Open t
      /\ (forall url w,
             startedAt w - t < resetDuration cfg ->
             let s := handleRequest opened url w in
             response s
             = Resolved (buildLog cfg (settledAt w) BrokenCircuitError)
             /\ field "type" (buildLog cfg (settledAt w) BrokenCircuitError)
                = Some (JEnum CB_OPEN)
             /\ downstreamCalls (trace s) = 0%nat
             /\ after s = opened)
      /\ (forall url w,
             resetDuration cfg <= startedAt w - t ->
             downstreamCalls (trace (handleRequest opened url w)) = 1%nat))
  /\ (history = [] ->
      forall pre url w,
        reqs = (pre ++ [(url, w)])%list ->
        state (breaker opened) = Open (settledAt w))
  /\ (forall url w,
         failed (handleRequest app url w) = false ->
         policy (breaker (after (handleRequest app url w)))
         = ConsecutivePolicy (consecutiveFailures cfg) 0).
Proof.
  intros Hty Hn Hlen fresh app opened Hfail.
  split; [|split].
  - destruct (failures_leave_open cfg history reqs Hty Hn Hlen Hfail)
      as [Hreset [t Hopen]].
    fold fresh in Hreset, Hopen. fold app in Hreset, Hopen.
    fold opened in Hreset, Hopen.
    exists t. split; [|split; [exact Hopen|split]].
    + apply open_since_last_attempt.
      * unfold fresh. rewrite (newAppService_consecutive cfg Hty).
        discriminate.
      * unfold fresh. rewrite (newAppService_consecutive cfg Hty).
        discriminate.
      * rewrite afterAll_app. exact Hopen.
    + intros url w Hlt s.
      destruct (open_call_rejected opened url w t Hopen)
        as [Hresp [Hget Hafter]]; [rewrite Hreset; exact Hlt|].
      subst s. unfold opened, app, fresh in Hresp.
      rewrite !afterAll_config, newAppService_config in Hresp.
      repeat split; auto.
      unfold downstreamCalls. now rewrite Hget.
    + intros url w Hge.
      refine (proj1 (probe_call opened url w t Hopen _)).
      rewrite Hreset. exact Hge.
  - intros -> pre url w ->. unfold opened, app. cbn [afterAll].
    apply (nth_failure_opens cfg pre url w Hty Hlen Hfail).
  - intros url w Hok.
    pose proof (consecutive_reachable cfg history Hty Hn) as Hinv.
    destruct (consecutive_step _ _ app url w Hn Hinv) as [_ [_ Hreset]].
    exact (Hreset Hok).
Qed.

Lemma consecutive_failures_open_witness :
  let opened :=
    afterAll
      (afterAll (newAppService (Samples.consecutiveConfig 3 1000))
         [(Samples.balanceUrl, Samples.okAt 0)])
      [(Samples.balanceUrl, Samples.refusedAt 1);
       (Samples.balanceUrl, Samples.slowAt 2);
       (Samples.balanceUrl, Samples.refusedAt 3)] in
  state (breaker opened) = Open 3
  /\ response (handleRequest opened Samples.balanceUrl (Samples.okAt 1002))
     = Resolved (buildLog (Samples.consecutiveConfig 3 1000) 1002
                   BrokenCircuitError)
  /\ downstreamCalls
       (trace (handleRequest opened Samples.balanceUrl (Samples.okAt 1002)))
     = 0%nat
  /\ downstreamCalls
       (trace (handleRequest opened Samples.balanceUrl (Samples.okAt 1003)))
     = 1%nat.
Proof.
  cbv zeta.
  destruct (consecutive_failures_open (Samples.consecutiveConfig 3 1000)
              [(Samples.balanceUrl, Samples.okAt 0)]
              [(Samples.balanceUrl, Samples.refusedAt 1);
               (Samples.balanceUrl, Samples.slowAt 2);
               (Samples.balanceUrl, Samples.refusedAt 3)])
    as [[t [Hlast [Hopen [Hreject Hprobe]]]] _].
  - reflexivity.
  - cbn. lia.
  - reflexivity.
  - repeat constructor.
  - vm_compute in Hlast. injection Hlast as <-.
    split; [exact Hopen|].
    destruct (Hreject Samples.balanceUrl (Samples.okAt 1002))
      as [Hresp [_ [Hnone _]]]; [cbn; lia|].
    split; [exact Hresp|]. split; [exact Hnone|].
    apply (Hprobe Samples.balanceUrl (Samples.okAt 1003)). cbn. lia.
Defined.

(** Without the bound on the starting time the statement of C1 fails:
    with threshold 1 and a reset duration of 10, one refused call at time
    0 opens the circuit, and the second call, started at time 100, is the
    half-open probe: it reaches the downstream and succeeds. *)
Lemma late_call_after_failures_is_probe :
  let cfg := Samples.consecutiveConfig 1 10 in
  let app := newAppService cfg in
  let reqs := [(Samples.balanceUrl, Samples.refusedAt 0)] in
  let s := handleRequest (afterAll app reqs) Samples.balanceUrl
             (Samples.okAt 100) in
  breakerType cfg = "consecutive"
  /\ Z.of_nat (List.length reqs) = consecutiveFailures cfg
  /\ allFailed (serve app reqs)
  /\ state (breaker (afterAll app reqs)) = Open 0
  /\ response s = Resolved (successResponse (JNum 42))
  /\ failed s = false
  /\ downstreamCalls (trace s) = 1%nat.
Proof.
  cbv zeta. repeat split. repeat constructor.
Qed.

(** ** Rebuilding the breaker *)

Lemma setupBreaker_fresh app :
  setupBreaker app = newAppService (configHandlerService app).
Proof.
  unfold newAppService, setupBreaker. cbn.
  now destruct (String.eqb (breakerType (configHandlerService app))
                  "consecutive").
Qed.

Lemma recordOutcome_parameters reset now ok p st st' :
  parameters (mkBreaker reset (recordOutcome now ok p) st)
  = parameters (mkBreaker reset p st').
Proof. destruct p; reflexivity. Qed.

Lemma clearPolicy_parameters reset p st st' :
  parameters (mkBreaker reset (clearPolicy p) st)
  = parameters (mkBreaker reset p st').
Proof. destruct p; reflexivity. Qed.

(** [execute] changes the running state of a breaker only: what it was
    built with stays. *)
Lemma execute_parameters {T} b start finish
    (call : unit -> Settled T * list Effect) :
  parameters (snd (execute b start finish call)) = parameters b.
Proof.
  unfold execute. destruct b as [reset p st]. cbn [state halfOpenAfter policy].
  destruct st as [|t|].
  - destruct (call tt) as [r tr]. cbn [snd]. apply recordOutcome_parameters.
  - destruct (start - t <? reset); [reflexivity|].
    destruct (call tt) as [r tr].
    destruct (isResolved r); cbn [snd];
      [apply clearPolicy_parameters | reflexivity].
  - reflexivity.
Qed.

Lemma legacy_after app w :
  let app1 :=
    if configWasUpdated (Legacy.configHandlerService app)
    then
      let u := Legacy.updateConfig app in
      Legacy.mkApp
        (Legacy.setConfigWasUpdated false (Legacy.configHandlerService u))
        (Legacy.consecutiveBreaker u) (Legacy.samplingBreaker u)
        (Legacy.timeout u)
    else app in
  let cfg := Legacy.configHandlerService app1 in
  let consecutive := String.eqb (breakerType cfg) "consecutive" in
  let b :=
    snd (execute
           (if consecutive then Legacy.consecutiveBreaker app1
            else Legacy.samplingBreaker app1)
           (startedAt w) (settledAt w)
           (fun _ => Legacy.handleTimeout app1 w)) in
  Legacy.after (Legacy.handleRequest app w)
  = if consecutive
    then Legacy.mkApp cfg b (Legacy.samplingBreaker app1) (Legacy.timeout app1)
    else Legacy.mkApp cfg (Legacy.consecutiveBreaker app1) b (Legacy.timeout app1).
Proof.
  cbv zeta. unfold Legacy.handleRequest.
  match goal with
  | |- context [execute ?b ?s ?f ?c] => destruct (execute b s f c) as [[r tr] b']
  end.
  cbn [snd].
  destruct r as [v|e]; [|destruct e];
    match goal with
    | |- context [String.eqb ?a ?b] => destruct (String.eqb a b)
    end; reflexivity.
Qed.

(** C4, as the code has it: the breaker is rebuilt, and all its running
    state discarded, whenever [setupBreaker] runs, whether or not the
    configuration differs from an earlier one: the result depends on the
    configuration alone.  [handleRequest] never rebuilds: it keeps the
    configuration and what the breaker was built with.  In the earlier
    revision [handleRequest] rebuilds exactly when [configWasUpdated] is
    set: then nothing of the previous breakers matters, otherwise both
    breakers and the timeout keep what they were built with; the flag is
    clear afterwards. *)
Theorem breaker_rebuilt_on_setup :
  (forall app,
      setupBreaker app = newAppService (configHandlerService app))
  /\ (forall cfg b1 b2,
      setupBreaker (mkApp cfg b1) = setupBreaker (mkApp cfg b2))
  /\ (forall app url w,
      configHandlerService (after (handleRequest app url w))
      = configHandlerService app
      /\ parameters (breaker (after (handleRequest app url w)))
         = parameters (breaker app))
  /\ (forall app w,
      configWasUpdated (Legacy.configHandlerService app) = true ->
      Legacy.handleRequest app w
      = Legacy.handleRequest
          (Legacy.newAppService (Legacy.configHandlerService app)) w)
  /\ (forall app w,
      configWasUpdated (Legacy.configHandlerService app) = false ->
      let app' := Legacy.after (Legacy.handleRequest app w) in
      parameters (Legacy.consecutiveBreaker app')
      = parameters (Legacy.consecutiveBreaker app)
      /\ parameters (Legacy.samplingBreaker app')
         = parameters (Legacy.samplingBreaker app)
      /\ Legacy.timeout app' = Legacy.timeout app)
  /\ (forall app w,
      configWasUpdated
        (Legacy.configHandlerService (Legacy.after (Legacy.handleRequest app w)))
      = false).
Proof.
  split; [|split; [|split; [|split; [|split]]]].
  - exact setupBreaker_fresh.
  - intros cfg b1 b2. now rewrite !setupBreaker_fresh.
  - intros app url w. rewrite after_of_guardedCall. cbn [configHandlerService breaker].
    split; [reflexivity|]. unfold guardedCall. apply execute_parameters.
  - intros app w Hflag. unfold Legacy.handleRequest.
    cbn [Legacy.newAppService Legacy.updateConfig Legacy.configHandlerService].
    rewrite Hflag. reflexivity.
  - intros app w Hflag app'. subst app'. rewrite legacy_after. cbv zeta.
    rewrite Hflag.
    destruct (String.eqb (breakerType (Legacy.configHandlerService app))
                "consecutive");
      cbn [Legacy.consecutiveBreaker Legacy.samplingBreaker Legacy.timeout];
      repeat split; apply execute_parameters.
  - intros app w. rewrite legacy_after. cbv zeta.
    destruct (configWasUpdated (Legacy.configHandlerService app)) eqn:Hflag;
      match goal with
      | |- context [String.eqb ?a ?b] => destruct (String.eqb a b)
      end; cbn; auto.
Qed.

Lemma breaker_rebuilt_on_setup_witness :
  let cfg := Legacy.setConfigWasUpdated true (Samples.consecutiveConfig 3 1000) in
  let used :=
    Legacy.after
      (Legacy.handleRequest
         (Legacy.newAppService (Samples.consecutiveConfig 3 1000))
         (Samples.refusedAt 0)) in
  let marked :=
    Legacy.mkApp cfg (Legacy.consecutiveBreaker used)
      (Legacy.samplingBreaker used) (Legacy.timeout used) in
  policy (Legacy.consecutiveBreaker used) = ConsecutivePolicy 3 1
  /\ Legacy.handleRequest marked (Samples.refusedAt 1)
     = Legacy.handleRequest (Legacy.newAppService cfg) (Samples.refusedAt 1).
Proof.
  cbv zeta. split; [reflexivity|].
  apply (proj1 (proj2 (proj2 (proj2 breaker_rebuilt_on_setup)))
           (Legacy.mkApp
              (Legacy.setConfigWasUpdated true (Samples.consecutiveConfig 3 1000))
              (Legacy.consecutiveBreaker
                 (Legacy.after
                    (Legacy.handleRequest
                       (Legacy.newAppService (Samples.consecutiveConfig 3 1000))
                       (Samples.refusedAt 0))))
              (Legacy.samplingBreaker
                 (Legacy.after
                    (Legacy.handleRequest
                       (Legacy.newAppService (Samples.consecutiveConfig 3 1000))
                       (Samples.refusedAt 0))))
              (Legacy.timeout
                 (Legacy.after
                    (Legacy.handleRequest
                       (Legacy.newAppService (Samples.consecutiveConfig 3 1000))
                       (Samples.refusedAt 0)))))
           (Samples.refusedAt 1)).
  reflexivity.
Defined.

(** The statement of C4 fails on the code.  Two refused calls leave a
    count of 2 under threshold 3; a reload with the very same
    configuration resets it to 0, so the third refusal no longer opens the
    circuit.  Conversely a changed configuration (threshold 5) that is not
    followed by [setupBreaker] leaves the breaker built for threshold 3 in
    use.  In the earlier revision a set [configWasUpdated] flag resets the
    count although nothing else in the configuration changed. *)
Lemma reload_with_same_config_resets :
  let cfg := Samples.consecutiveConfig 3 1000 in
  let two := [(Samples.balanceUrl, Samples.refusedAt 0);
              (Samples.balanceUrl, Samples.refusedAt 1)] in
  let app := afterAll (newAppService cfg) two in
  let third a := after (handleRequest a Samples.balanceUrl (Samples.refusedAt 2)) in
  let changed := mkApp (Samples.consecutiveConfig 5 1000) (breaker app) in
  let old := Legacy.after (Legacy.handleRequest (Legacy.newAppService cfg)
                             (Samples.refusedAt 0)) in
  let flagged :=
    Legacy.mkApp (Legacy.setConfigWasUpdated true cfg)
      (Legacy.consecutiveBreaker old) (Legacy.samplingBreaker old)
      (Legacy.timeout old) in
  configHandlerService (setupBreaker app) = configHandlerService app
  /\ parameters (breaker (setupBreaker app)) = parameters (breaker app)
  /\ policy (breaker app) = ConsecutivePolicy 3 2
  /\ policy (breaker (setupBreaker app)) = ConsecutivePolicy 3 0
  /\ state (breaker (third app)) = Open 2
  /\ state (breaker (third (setupBreaker app))) = Closed
  /\ parameters (breaker (third changed)) = ConsecutiveWith 1000 3
  /\ state (breaker (third changed)) = Open 2
  /\ policy (Legacy.consecutiveBreaker old) = ConsecutivePolicy 3 1
  /\ policy (Legacy.consecutiveBreaker
               (Legacy.after (Legacy.handleRequest flagged (Samples.refusedAt 1))))
     = ConsecutivePolicy 3 1
  /\ policy (Legacy.consecutiveBreaker
               (Legacy.after (Legacy.handleRequest old (Samples.refusedAt 1))))
     = ConsecutivePolicy 3 2.
Proof.
  cbv zeta. repeat split.
Qed.

(** ** Further properties of [handleRequest] *)

(** X1: a call that reached the downstream and lost the race against the
    deadline resolves with a TIMEOUT event whose data is the configured
    [timeoutDuration], whatever the GET did in the end. *)
Theorem deadline_gives_timeout_event app url w :
  downstreamCalls (trace (handleRequest app url w)) <> 0%nat ->
  deadlineFirst w = true ->
  exists log,
    response (handleRequest app url w) = Resolved log
    /\ field "type" log = Some (JEnum TIMEOUT)
    /\ field "message" log = Some (JStr "Request was timed out.")
    /\ field "data" log
       = Some (JObj [("timeoutDuration",
                      JNum (timeoutDuration (configHandlerService app)))])
    /\ posted (trace (handleRequest app url w)) = [log].
Proof.
  intros Hcalls Hrace.
  open_call. split_call app w; try congruence; try (now elim Hcalls);
    eexists; repeat split.
Qed.

Lemma deadline_gives_timeout_event_witness :
  exists log,
    response (handleRequest (newAppService Samples.samplingConfig)
                Samples.balanceUrl (Samples.slowAt 2)) = Resolved log
    /\ field "type" log = Some (JEnum TIMEOUT)
    /\ field "message" log = Some (JStr "Request was timed out.")
    /\ field "data" log = Some (JObj [("timeoutDuration", JNum 500)])
    /\ posted (trace (handleRequest (newAppService Samples.samplingConfig)
                        Samples.balanceUrl (Samples.slowAt 2))) = [log].
Proof.
  apply (deadline_gives_timeout_event (newAppService Samples.samplingConfig)
           Samples.balanceUrl (Samples.slowAt 2)).
  - cbn. discriminate.
  - reflexivity.
Defined.

(** X2: when the GET of a call rejects before the deadline, the message of
    that rejection arrives unchanged in the ERROR event, as [data.result],
    next to the fixed [data.expected]. *)
Theorem rejection_message_reported app url w message :
  downstreamCalls (trace (handleRequest app url w)) <> 0%nat ->
  deadlineFirst w = false ->
  http w = HttpRejects message ->
  exists log,
    response (handleRequest app url w) = Resolved log
    /\ field "type" log = Some (JEnum ERROR)
    /\ field "message" log = Some (JStr "Service is not available.")
    /\ field "data" log
       = Some (JObj [("expected", JStr "Not an error"); ("result", message)])
    /\ posted (trace (handleRequest app url w)) = [log].
Proof.
  intros Hcalls Hrace Hhttp.
  open_call. split_call app w; try congruence; try (now elim Hcalls);
    injection Hhttp as <-; eexists; repeat split.
Qed.

Lemma rejection_message_reported_witness :
  exists log,
    response (handleRequest (newAppService Samples.samplingConfig)
                Samples.balanceUrl (Samples.refusedAt 2)) = Resolved log
    /\ field "type" log = Some (JEnum ERROR)
    /\ field "message" log = Some (JStr "Service is not available.")
    /\ field "data" log
       = Some (JObj [("expected", JStr "Not an error");
                     ("result", JStr "connect ECONNREFUSED")])
    /\ posted (trace (handleRequest (newAppService Samples.samplingConfig)
                        Samples.balanceUrl (Samples.refusedAt 2))) = [log].
Proof.
  apply (rejection_message_reported (newAppService Samples.samplingConfig)
           Samples.balanceUrl (Samples.refusedAt 2)
           (JStr "connect ECONNREFUSED")).
  - cbn. discriminate.
  - reflexivity.
  - reflexivity.
Defined.

(** X3: every event names the same source and detector and carries the
    clock read in the catch block; its message is fixed by its type. *)
Theorem event_fixed_fields app url w log :
  In log (posted (trace (handleRequest app url w))) ->
  field "source" log = Some (JStr "Database Service")
  /\ field "detector" log = Some (JStr "Price Service")
  /\ field "time" log = Some (JNum (settledAt w))
  /\ ((field "type" log = Some (JEnum CB_OPEN)
       /\ field "message" log = Some (JStr "CircuitBreaker is open."))
      \/ (field "type" log = Some (JEnum TIMEOUT)
          /\ field "message" log = Some (JStr "Request was timed out."))
      \/ (field "type" log = Some (JEnum ERROR)
          /\ field "message" log = Some (JStr "Service is not available."))).
Proof.
  rewrite posted_of_guardedCall.
  destruct (fst (fst (guardedCall app url w))) as [data|e]; cbn.
  - intros [].
  - intros [<-|[]]. destruct e; cbn; auto 8.
Qed.

Lemma event_fixed_fields_witness :
  field "time" (buildLog Samples.samplingConfig 9
                  (OtherError (JStr "connect ECONNREFUSED")))
  = Some (JNum 9).
Proof.
  apply (event_fixed_fields (newAppService Samples.samplingConfig)
           Samples.balanceUrl (Samples.refusedAt 9)
           (buildLog Samples.samplingConfig 9
              (OtherError (JStr "connect ECONNREFUSED")))).
  cbn. left. reflexivity.
Defined.

(** X4: the monitor is POSTed to exactly when the call failed, once, at
    the configured [monitorUrl]; a successful call reports nothing. *)
Theorem report_iff_failed app url w :
  postUrls (trace (handleRequest app url w))
  = if failed (handleRequest app url w)
    then [monitorUrl (configHandlerService app)]
    else [].
Proof.
  open_call. split_call app w; reflexivity.
Qed.

(** X5: a call makes one GET, to the url it was given, unless it resolves
    with a CB_OPEN event, in which case it makes none. *)
Theorem get_goes_to_url app url w :
  getUrls (trace (handleRequest app url w))
  = match typeOf (response (handleRequest app url w)) with
    | Some (JEnum CB_OPEN) => []
    | _ => [url]
    end.
Proof.
  open_call. split_call app w; reflexivity.
Qed.

(** X6: what a caller gets is an object it can branch on by [type]: the
    success object with the fields type, message and result, or an event
    with the six event fields whose type is not a string. *)
Theorem response_shape app url w :
  exists v,
    response (handleRequest app url w) = Resolved v
    /\ if failed (handleRequest app url w)
       then keys v = eventFields
            /\ exists t, field "type" v = Some (JEnum t)
       else keys v = ["type"; "message"; "result"]
            /\ field "type" v = Some (JStr "Success")
            /\ field "message" v
               = Some (JStr "Request to database was successful").
Proof.
  rewrite failed_iff_rejected, response_of_guardedCall.
  destruct (fst (fst (guardedCall app url w))) as [data|e]; cbn.
  - eexists. repeat split.
  - eexists. split; [reflexivity|]. split; [apply buildLog_keys|].
    destruct e; cbn; eauto.
Qed.

(** ** Reloading and sequences of calls *)

(** X7: [setupBreaker] picks the consecutive breaker for the type
    'consecutive' and the sampling breaker for every other string, takes
    the parameters from the configuration, starts closed, and keeps
    nothing of what was served before: reloading twice is reloading once,
    and reloading after any calls is reloading at once. *)
Theorem setupBreaker_selects app :
  let cfg := configHandlerService app in
  parameters (breaker (setupBreaker app))
  = (if String.eqb (breakerType cfg) "consecutive"
     then ConsecutiveWith (resetDuration cfg) (consecutiveFailures cfg)
     else SamplingWith (resetDuration cfg) (threshold cfg)
            (monitorDuration cfg) (minimumRequests cfg))
  /\ state (breaker (setupBreaker app)) = Closed
  /\ setupBreaker (setupBreaker app) = setupBreaker app
  /\ forall reqs, setupBreaker (afterAll app reqs) = setupBreaker app.
Proof.
  cbv zeta. repeat split.
  - unfold setupBreaker.
    now destruct (String.eqb (breakerType (configHandlerService app))
                    "consecutive").
  - unfold setupBreaker.
    now destruct (String.eqb (breakerType (configHandlerService app))
                    "consecutive").
  - unfold setupBreaker.
    destruct (String.eqb (breakerType (configHandlerService app))
                "consecutive") eqn:Hty; cbn; now rewrite Hty.
  - intros reqs. rewrite !setupBreaker_fresh. now rewrite afterAll_config.
Qed.

Lemma getUrls_app tr1 tr2 :
  getUrls (tr1 ++ tr2) = (getUrls tr1 ++ getUrls tr2)%list.
Proof.
  induction tr1 as [|e tr1 IH]; [reflexivity|].
  destruct e; cbn; now rewrite IH.
Qed.

Lemma handleRequest_counts app url w :
  List.length (posted (trace (handleRequest app url w)))
  = (if failed (handleRequest app url w) then 1 else 0)%nat
  /\ (List.length (getUrls (trace (handleRequest app url w))) <= 1)%nat.
Proof.
  split.
  - rewrite posted_of_guardedCall, failed_iff_rejected.
    now destruct (fst (fst (guardedCall app url w))).
  - open_call. split_call app w; lia.
Qed.

(** X8: over any sequence of calls the monitor receives one event per
    failed call and nothing else, the downstream receives at most one GET
    per call, and the service keeps its configuration and the parameters
    its breaker was built with. *)
Theorem serve_accounts app reqs :
  let traces := flat_map trace (serve app reqs) in
  List.length (posted traces) = failures (serve app reqs)
  /\ (List.length (getUrls traces) <= List.length reqs)%nat
  /\ configHandlerService (afterAll app reqs) = configHandlerService app
  /\ parameters (breaker (afterAll app reqs)) = parameters (breaker app).
Proof.
  cbv zeta. revert app.
  induction reqs as [|[url w] reqs IH]; intros app.
  - repeat split; cbn; lia.
  - cbn [serve afterAll flat_map List.length].
    destruct (IH (after (handleRequest app url w))) as [Hp [Hg [Hc Hb]]].
    destruct (handleRequest_counts app url w) as [Hp1 Hg1].
    rewrite posted_app, getUrls_app, !length_app, Hp, Hp1, Hc, Hb.
    unfold failures. cbn [filter].
    repeat split.
    + destruct (failed (handleRequest app url w)); cbn [List.length]; lia.
    + lia.
    + now rewrite after_of_guardedCall.
    + rewrite after_of_guardedCall. cbn [breaker].
      unfold guardedCall. apply execute_parameters.
Qed.

(** ** The earlier revision *)

Ltac open_legacy :=
  unfold Legacy.handleRequest, legacyFailed, legacySelected, execute,
    Legacy.handleTimeout, timeoutExecute, Legacy.sendToDatabase,
    Legacy.sendError, Legacy.updateConfig, Legacy.setConfigWasUpdated,
    circuitBreaker in *.

Ltac split_legacy app w :=
  destruct (configWasUpdated (Legacy.configHandlerService app)) eqn:?;
  cbn [Legacy.configHandlerService Legacy.consecutiveBreaker
       Legacy.samplingBreaker Legacy.timeout breakerType state halfOpenAfter
       policy] in *;
  destruct (String.eqb (breakerType (Legacy.configHandlerService app))
              "consecutive") eqn:?;
  repeat match goal with
    | |- context [match state ?b with _ => _ end] =>
        destruct (state b) as [|?opened|]
    | |- context [if ?a <? ?b then _ else _] => destruct (a <? b) eqn:?
    end;
  destruct (http w) as [?status ?data|?message] eqn:?;
  destruct (deadlineFirst w) eqn:?;
  split_status;
  cbn in *.

(** X9: the earlier revision always resolves; a failed call resolves with
    the log message it POSTed, once, to [monitorUrl], and a successful call
    resolves with the fixed success object and POSTs nothing. *)
Theorem legacy_resolves_with_posted_log app w :
  let s := Legacy.handleRequest app w in
  exists v,
    Legacy.response s = Resolved v
    /\ posted (Legacy.trace s) = (if legacyFailed s then [v] else [])
    /\ postUrls (Legacy.trace s)
       = (if legacyFailed s
          then [monitorUrl (Legacy.configHandlerService app)]
          else [])
    /\ (legacyFailed s = false -> v = Legacy.returnString).
Proof.
  cbv zeta. open_legacy.
  split_legacy app w; eexists; repeat split; intros; congruence.
Qed.

Lemma legacy_handleTimeout_payload app payload w :
  Legacy.handleTimeout app (withPayload payload w) = Legacy.handleTimeout app w.
Proof.
  unfold Legacy.handleTimeout, withPayload, Legacy.sendToDatabase.
  cbn [http deadlineFirst]. now destruct (http w).
Qed.

(** X10: the earlier revision never looks at the payload of the response:
    with another payload the call resolves with the same value, performs
    the same actions and leaves the same service behind. *)
Theorem legacy_ignores_payload app payload w :
  Legacy.handleRequest app (withPayload payload w) = Legacy.handleRequest app w.
Proof.
  unfold Legacy.handleRequest, execute.
  rewrite !legacy_handleTimeout_payload. reflexivity.
Qed.

(** X11: every log message the earlier revision posts has the fields
    type, time, source, target and message; it names 'priceservice' as
    source and 'databaseservice' as target, carries the clock read when it
    is built, and its message is fixed by its type. *)
Theorem legacy_event_fields app w log :
  In log (posted (Legacy.trace (Legacy.handleRequest app w))) ->
  keys log = legacyFields
  /\ field "source" log = Some (JStr "priceservice")
  /\ field "target" log = Some (JStr "databaseservice")
  /\ field "time" log = Some (JNum (settledAt w))
  /\ ((field "type" log = Some (JEnum CB_OPEN)
       /\ field "message" log = Some (JStr "CircuitBreaker is open."))
      \/ (field "type" log = Some (JEnum TIMEOUT)
          /\ field "message" log = Some (JStr "Request was timed out."))
      \/ (field "type" log = Some (JEnum ERROR)
          /\ field "message" log = Some (JStr "Service is not available."))).
Proof.
  unfold Legacy.handleRequest.
  match goal with
  | |- context [execute ?b ?s ?f ?c] =>
      pose proof (execute_posts b s f c (legacy_handleTimeout_posts _ w)) as Htr;
      destruct (execute b s f c) as [[r tr] b']
  end.
  cbn [fst snd] in Htr.
  destruct r as [v|e]; [|destruct e];
    cbn [Legacy.trace Legacy.sendError];
    rewrite ?posted_app, ?Htr; cbn; intuition (subst; cbn; auto 8).
Qed.

Lemma legacy_event_fields_witness :
  exists log,
    Legacy.response
      (Legacy.handleRequest (Legacy.newAppService Samples.samplingConfig)
         (Samples.slowAt 6)) = Resolved log
    /\ keys log = legacyFields
    /\ field "time" log = Some (JNum 6).
Proof.
  eexists. split; [reflexivity|].
  refine ((fun H => conj (proj1 H) (proj1 (proj2 (proj2 (proj2 H)))))
            (legacy_event_fields
               (Legacy.newAppService Samples.samplingConfig)
               (Samples.slowAt 6) _ _)).
  cbn. left. reflexivity.
Defined.

(** X12: without a pending update a call of the earlier revision runs
    through the breaker its [breakerType] selects and leaves the other
    breaker, the timeout policy and the configuration as they were. *)
Theorem legacy_other_breaker_untouched app w :
  configWasUpdated (Legacy.configHandlerService app) = false ->
  let app' := Legacy.after (Legacy.handleRequest app w) in
  Legacy.configHandlerService app' = Legacy.configHandlerService app
  /\ Legacy.timeout app' = Legacy.timeout app
  /\ (if String.eqb (breakerType (Legacy.configHandlerService app))
           "consecutive"
      then Legacy.samplingBreaker app' = Legacy.samplingBreaker app
      else Legacy.consecutiveBreaker app' = Legacy.consecutiveBreaker app)
  /\ legacySelected app'
     = snd (execute (legacySelected app) (startedAt w) (settledAt w)
              (fun _ => Legacy.handleTimeout app w)).
Proof.
  intros Hflag app'. subst app'. rewrite legacy_after. cbv zeta.
  unfold legacySelected. rewrite Hflag.
  destruct (String.eqb (breakerType (Legacy.configHandlerService app))
              "consecutive") eqn:Hty;
    cbn [Legacy.configHandlerService Legacy.timeout Legacy.samplingBreaker
         Legacy.consecutiveBreaker]; rewrite Hty; repeat split.
Qed.

Lemma legacy_other_breaker_untouched_witness :
  let app := Legacy.newAppService (Samples.consecutiveConfig 3 1000) in
  Legacy.samplingBreaker
    (Legacy.after (Legacy.handleRequest app (Samples.refusedAt 0)))
  = Legacy.samplingBreaker app.
Proof.
  cbv zeta.
  exact (proj1 (proj2 (proj2
           (legacy_other_breaker_untouched
              (Legacy.newAppService (Samples.consecutiveConfig 3 1000))
              (Samples.refusedAt 0) eq_refl)))).
Defined.

(** X13: in the earlier revision too an unreachable monitor changes
    neither the value a call resolves with, nor the service it leaves
    behind, nor the requests it makes. *)
Theorem legacy_monitor_failure_swallowed app w :
  let up := Legacy.handleRequest app (withMonitor true w) in
  let down := Legacy.handleRequest app (withMonitor false w) in
  Legacy.response down = Legacy.response up
  /\ Legacy.after down = Legacy.after up
  /\ getUrls (Legacy.trace down) = getUrls (Legacy.trace up)
  /\ posted (Legacy.trace down) = posted (Legacy.trace up).
Proof.
  cbv zeta. unfold withMonitor. open_legacy.
  cbn [startedAt settledAt http deadlineFirst monitorReachable].
  split_legacy app w; repeat split.
Qed.

(** X14: a call of the earlier revision makes one GET, to the configured
    [databaseUrl], unless it resolves with a CB_OPEN message, in which
    case it makes none. *)
Theorem legacy_get_goes_to_databaseUrl app w :
  getUrls (Legacy.trace (Legacy.handleRequest app w))
  = match typeOf (Legacy.response (Legacy.handleRequest app w)) with
    | Some (JEnum CB_OPEN) => []
    | _ => [databaseUrl (Legacy.configHandlerService app)]
    end.
Proof.
  open_legacy. split_legacy app w; reflexivity.
Qed.

(** X15: a call of the earlier revision that reached the downstream is a
    TIMEOUT when the deadline came first, and otherwise a success when the
    GET resolved, whatever its status, and an ERROR when it rejected. *)
Theorem legacy_classified_by_cause app w :
  getUrls (Legacy.trace (Legacy.handleRequest app w)) <> [] ->
  typeOf (Legacy.response (Legacy.handleRequest app w))
  = if deadlineFirst w then Some (JEnum TIMEOUT)
    else match http w with
         | HttpResolves _ _ => Some (JStr "Success")
         | HttpRejects _ => Some (JEnum ERROR)
         end.
Proof.
  intros Hget. open_legacy.
  split_legacy app w; try reflexivity; now elim Hget.
Qed.

Lemma legacy_classified_by_cause_witness :
  typeOf (Legacy.response
            (Legacy.handleRequest (Legacy.newAppService Samples.samplingConfig)
               (mkWorld 0 1 (HttpResolves 503 (JStr "unavailable")) false true)))
  = Some (JStr "Success").
Proof.
  apply (legacy_classified_by_cause
           (Legacy.newAppService Samples.samplingConfig)
           (mkWorld 0 1 (HttpResolves 503 (JStr "unavailable")) false true)).
  cbn. discriminate.
Defined.

(** ** The two revisions side by side *)

Lemma postUrls_app tr1 tr2 :
  postUrls (tr1 ++ tr2) = (postUrls tr1 ++ postUrls tr2)%list.
Proof.
  induction tr1 as [|e tr1 IH]; [reflexivity|].
  destruct e; cbn; now rewrite IH.
Qed.

Lemma postUrls_none tr : posted tr = [] -> postUrls tr = [].
Proof.
  induction tr as [|e tr IH]; [reflexivity|].
  destruct e; cbn; auto. discriminate.
Qed.

(** Two calls that settle alike move a breaker alike. *)
Lemma execute_agree {T1 T2} b start finish
    (c1 : unit -> Settled T1 * list Effect)
    (c2 : unit -> Settled T2 * list Effect) :
  errorOf (fst (c1 tt)) = errorOf (fst (c2 tt)) ->
  getUrls (snd (c1 tt)) = getUrls (snd (c2 tt)) ->
  posted (snd (c1 tt)) = [] ->
  posted (snd (c2 tt)) = [] ->
  let r1 := execute b start finish c1 in
  let r2 := execute b start finish c2 in
  errorOf (fst (fst r1)) = errorOf (fst (fst r2))
  /\ getUrls (snd (fst r1)) = getUrls (snd (fst r2))
  /\ posted (snd (fst r1)) = []
  /\ posted (snd (fst r2)) = []
  /\ snd r1 = snd r2.
Proof.
  intros Herr Hget Hp1 Hp2. cbv zeta. unfold execute.
  destruct (c1 tt) as [r1 tr1], (c2 tt) as [r2 tr2]. cbn [fst snd] in *.
  assert (Hres : isResolved r1 = isResolved r2).
  { destruct r1, r2; cbn in Herr |- *; congruence. }
  destruct (state b) as [|t|]; [| destruct (start - t <? halfOpenAfter b) |];
    rewrite ?Hres; try destruct (isResolved r2); cbn [fst snd]; auto.
Qed.

Lemma handleTimeout_agree app w :
  let cfg := Legacy.configHandlerService app in
  errorOf (fst (handleTimeout cfg (databaseUrl cfg) w))
  = errorOf (fst (Legacy.handleTimeout app w))
  /\ getUrls (snd (handleTimeout cfg (databaseUrl cfg) w))
     = getUrls (snd (Legacy.handleTimeout app w))
  /\ posted (snd (handleTimeout cfg (databaseUrl cfg) w)) = [].
Proof.
  cbv zeta.
  unfold handleTimeout, Legacy.handleTimeout, timeoutExecute, sendRequest,
    Legacy.sendToDatabase.
  destruct (http w) as [status data|message]; destruct (deadlineFirst w);
    split_status; cbn; auto.
Qed.

(** X16: the two revisions treat a call alike.  From the same
    configuration (no update pending) and the same breaker, a call to
    [databaseUrl] gets the same [type] in both, makes the same GET and the
    same POST, and leaves the breaker in the same state. *)
Theorem revisions_agree app w :
  configWasUpdated (Legacy.configHandlerService app) = false ->
  let cfg := Legacy.configHandlerService app in
  let new := handleRequest (mkApp cfg (legacySelected app)) (databaseUrl cfg) w in
  let old := Legacy.handleRequest app w in
  typeOf (response new) = typeOf (Legacy.response old)
  /\ getUrls (trace new) = getUrls (Legacy.trace old)
  /\ postUrls (trace new) = postUrls (Legacy.trace old)
  /\ breaker (after new) = legacySelected (Legacy.after old).
Proof.
  intros Hflag. cbv zeta.
  rewrite after_of_guardedCall, legacy_after. cbv zeta.
  unfold handleRequest, guardedCall, Legacy.handleRequest. rewrite Hflag.
  cbn [configHandlerService breaker].
  destruct (handleTimeout_agree app w) as [Herr [Hget Hpost]].
  cbv zeta in Herr, Hget, Hpost.
  pose proof (execute_agree (legacySelected app) (startedAt w) (settledAt w)
                (fun _ => handleTimeout (Legacy.configHandlerService app)
                            (databaseUrl (Legacy.configHandlerService app)) w)
                (fun _ => Legacy.handleTimeout app w)
                Herr Hget Hpost (legacy_handleTimeout_posts app w)) as Hex.
  cbv zeta in Hex. unfold legacySelected in *.
  destruct (String.eqb (breakerType (Legacy.configHandlerService app))
              "consecutive") eqn:Hty;
    cbn [Legacy.configHandlerService Legacy.consecutiveBreaker
         Legacy.samplingBreaker]; rewrite ?Hty;
    cbn [Legacy.configHandlerService Legacy.consecutiveBreaker
         Legacy.samplingBreaker];
    match type of Hex with
    | context [execute ?b ?s ?f (fun _ => handleTimeout ?c ?u ?x)] =>
        destruct (execute b s f (fun _ => handleTimeout c u x))
          as [[r1 tr1] b1]
    end;
    match type of Hex with
    | context [execute ?b ?s ?f (fun _ => Legacy.handleTimeout ?a ?x)] =>
        destruct (execute b s f (fun _ => Legacy.handleTimeout a x))
          as [[r2 tr2] b2]
    end;
    cbn [fst snd] in Hex |- *; destruct Hex as [He [Hg [Hp1 [Hp2 Hb]]]];
    (destruct r1 as [v1|e1], r2 as [v2|e2]; cbn in He; try discriminate He;
     [| injection He as <-; destruct e1 ];
     cbn [response trace Legacy.response Legacy.trace Legacy.sendError
          sendError typeOf];
     rewrite ?getUrls_app, ?postUrls_app, ?Hg,
       ?(postUrls_none tr1 Hp1), ?(postUrls_none tr2 Hp2);
     cbn [getUrls postUrls List.app];
     repeat split; try exact Hb).
Qed.

Lemma revisions_agree_witness :
  let app := Legacy.newAppService Samples.samplingConfig in
  let cfg := Legacy.configHandlerService app in
  typeOf (response (handleRequest (mkApp cfg (legacySelected app))
                      (databaseUrl cfg) (Samples.refusedAt 0)))
  = typeOf (Legacy.response (Legacy.handleRequest app (Samples.refusedAt 0))).
Proof.
  cbv zeta.
  exact (proj1 (revisions_agree (Legacy.newAppService Samples.samplingConfig)
                  (Samples.refusedAt 0) eq_refl)).
Defined.
